(** * react-csv-uploader: the upload handler of [MyCsvUploader]

    A shallow embedding of [components/myCsvUploader.tsx]: the [onDrop]
    handler (size gate, per-row validation inside Papa's [complete]
    callback, batch validator, [onUpload]) and [downloadTemplate]; then
    [handleDeleteData], [handleVisualizeData], the blocks of the JSX that
    depend on the state, and the paging of [DataTable].

    Conventions of the embedding.
    - A JavaScript string is a [string]; each [ascii] is read as one code
      unit below 256 (the Latin-1 range).
    - A parsed row, [Record<string, string>], is a [gmap string string] of
      its own cells: [row !! key] is the cell under [key], [None] when the
      row has none.  [checkColumn] reads own cells; [getProperty] and
      [checkColumnJS] add the names a row inherits from [Object.prototype]
      and the [TypeError] that reading one of them ends in.
    - A [number] is a rational ([Q]) where the source computes with
      fractions ([maxSizeMB], the sizes shown in MB) and an [N] where it is a
      byte count or a [nat] where it is an array index.
    - React state is a record, each [setX] a function on it; calls to the
      props' callbacks and to Papa are recorded in a trace.
    - Papa's outcome for a file is an input of the model.  [onDropStart] is
      the part of the handler that runs in the event, [complete] and
      [parseError] are the callbacks, and [onDrop] runs a drop together
      with the one callback Papa makes for it; [asyncStep] takes the drop
      and the callback as separate events. *)

From Stdlib Require Import Ascii String QArith Qabs Qround.
From stdpp Require Import base option list gmap strings pretty.

Local Open Scope string_scope.
Local Open Scope list_scope.

(** ** JavaScript strings *)

Module JS.

(** The double quote, written by its code so that no literal needs one. *)
Definition dquote : string := String "034"%char "".

(** [WhiteSpace] and [LineTerminator] code points below 256: TAB, LF, VT,
    FF, CR, SP and NBSP. *)
Definition isWhiteSpace (c : ascii) : bool :=
  bool_decide (N_of_ascii c ∈ [9; 10; 11; 12; 13; 32; 160]%N).

Definition isEmpty (s : string) : bool :=
  match s with "" => true | String _ _ => false end.

(** [String.prototype.trimStart] *)
Fixpoint trimStart (s : string) : string :=
  match s with
  | "" => ""
  | String c rest => if isWhiteSpace c then trimStart rest else s
  end.

(** [String.prototype.trimEnd] *)
Fixpoint trimEnd (s : string) : string :=
  match s with
  | "" => ""
  | String c rest =>
      let rest' := trimEnd rest in
      if isWhiteSpace c && isEmpty rest' then "" else String c rest'
  end.

(** [String.prototype.trim] *)
Definition trim (s : string) : string := trimStart (trimEnd s).

(** [ToBoolean] of a [string | undefined | null]: only a non-empty string
    is truthy. *)
Definition truthy (v : option string) : bool :=
  match v with
  | Some s => negb (isEmpty s)
  | None => false
  end.

(** [Array.prototype.join] on strings. *)
Definition join (sep : string) (l : list string) : string :=
  String.concat sep l.

(** [`${n}`] for an array index (an integer below 2^32). *)
Definition ofIndex (n : nat) : string := pretty n.

(** The line feed of the escape [\n]. *)
Definition newline : string := String "010"%char "".

(** [ToBoolean] of a finite [number]: zero is the only falsy one. *)
Definition truthyNumber (x : Q) : bool := negb (Qeq_bool x 0).

(** [x > y] on numbers. *)
Definition gt (x y : Q) : bool := negb (Qle_bool x y).

Fixpoint zeros (k : nat) : string :=
  match k with O => "" | S k => String "0" (zeros k) end.

(** [Number.prototype.toFixed(digits)] for [|x| < 10^21]: the integer
    nearest to [|x| * 10^digits] (the larger one on a tie), written with at
    least [digits + 1] digits and a point before the last [digits]. *)
Definition toFixed (digits : nat) (x : Q) : string :=
  let n := Qfloor (Qabs x * inject_Z (10 ^ Z.of_nat digits) + (1 # 2)) in
  let m := pretty (Z.to_N n) in
  let m := zeros (S digits - String.length m) +:+ m in
  let k := (String.length m - digits)%nat in
  (if gt 0 x then "-" else "") +:+
  substring 0 k m +:+
  (if digits is O then "" else "." +:+ substring k digits m).

(** The characters [encodeURI] leaves alone: [uriReserved], [uriUnescaped]
    and the number sign. *)
Definition uriKept (c : ascii) : bool :=
  let n := N_of_ascii c in
  bool_decide (65 ≤ n ≤ 90)%N || bool_decide (97 ≤ n ≤ 122)%N ||
  bool_decide (48 ≤ n ≤ 57)%N ||
  existsb (Ascii.eqb c) (list_ascii_of_string ";/?:@&=+$,-_.!~*'()#").

Definition hexDigit (n : N) : ascii :=
  ascii_of_N (if (n <? 10)%N then 48 + n else 55 + n).

(** [%XX] for one octet. *)
Definition percent (octet : N) : string :=
  String "%" (String (hexDigit (octet / 16)) (String (hexDigit (octet mod 16)) "")).

(** [encodeURI]: every other code unit is replaced by the escapes of the
    octets of its UTF-8 encoding (one octet below 128, two from 128 to
    255). *)
Fixpoint encodeURI (s : string) : string :=
  match s with
  | "" => ""
  | String c rest =>
      let n := N_of_ascii c in
      (if uriKept c then String c ""
       else if (n <? 128)%N then percent n
       else percent (192 + n / 64) +:+ percent (128 + n mod 64))
      +:+ encodeURI rest
  end.

End JS.

(** ** Data model *)

(** [Record<string, string>] *)
Abbreviation Row := (gmap string string).

Module ColumnConfig.
Record t := mk {
  name : string;
  required : bool;
  validate : option (string → bool);
  description : option string;
}.
End ColumnConfig.

Module File.
Record t := mk {
  name : string;
  size : N;
}.
End File.

(** The calls the handler makes to code it does not own. *)
Inductive Call :=
  | ParseCall (file : File.t)                      (* Papa.parse(file, ...) *)
  | ValidateCall (column : string) (val : string)  (* col.validate(val) *)
  | ValidatorCall (data : list Row)                (* validator(validated) *)
  | OnUploadCall (validData : list Row).           (* onUpload(validated) *)

(** The props [onDrop] and [downloadTemplate] read. [onUpload] returns
    nothing the handler uses, so only its call is recorded. *)
Record CSVUploaderProps := {
  columnConfigs : list ColumnConfig.t;
  maxSizeMB : option Q;
  validator : list Row → option string;
}.

(** The [useState] cells of the component. *)
Record State := {
  uploadedFileName : option string;
  uploadedFileSize : option string;
  errors : list string;
  parsedData : list Row;
  fileError : option string;
  showUploadedDataTable : bool;
}.

Definition initialState : State :=
  {| uploadedFileName := None; uploadedFileSize := None; errors := [];
     parsedData := []; fileError := None; showUploadedDataTable := false |}.

Definition setErrors (v : list string) (st : State) : State :=
  {| uploadedFileName := uploadedFileName st;
     uploadedFileSize := uploadedFileSize st;
     errors := v;
     parsedData := parsedData st;
     fileError := fileError st;
     showUploadedDataTable := showUploadedDataTable st |}.

Definition setFileError (v : option string) (st : State) : State :=
  {| uploadedFileName := uploadedFileName st;
     uploadedFileSize := uploadedFileSize st;
     errors := errors st;
     parsedData := parsedData st;
     fileError := v;
     showUploadedDataTable := showUploadedDataTable st |}.

Definition setParsedData (v : list Row) (st : State) : State :=
  {| uploadedFileName := uploadedFileName st;
     uploadedFileSize := uploadedFileSize st;
     errors := errors st;
     parsedData := v;
     fileError := fileError st;
     showUploadedDataTable := showUploadedDataTable st |}.

Definition setUploadedFileName (v : option string) (st : State) : State :=
  {| uploadedFileName := v;
     uploadedFileSize := uploadedFileSize st;
     errors := errors st;
     parsedData := parsedData st;
     fileError := fileError st;
     showUploadedDataTable := showUploadedDataTable st |}.

Definition setUploadedFileSize (v : option string) (st : State) : State :=
  {| uploadedFileName := uploadedFileName st;
     uploadedFileSize := v;
     errors := errors st;
     parsedData := parsedData st;
     fileError := fileError st;
     showUploadedDataTable := showUploadedDataTable st |}.

(** ** The per-row validation pass (the [data.filter] of [complete]) *)

(** [`Row ${index + 2}: Missing required field "${col.name}".`] *)
Definition missingMessage (index : nat) (col : ColumnConfig.t) : string :=
  "Row " +:+ JS.ofIndex (index + 2) +:+ ": Missing required field " +:+
  JS.dquote +:+ ColumnConfig.name col +:+ JS.dquote +:+ ".".

(** [`Row ${index + 2}: Invalid value in "${col.name}".`] *)
Definition invalidMessage (index : nat) (col : ColumnConfig.t) : string :=
  "Row " +:+ JS.ofIndex (index + 2) +:+ ": Invalid value in " +:+
  JS.dquote +:+ ColumnConfig.name col +:+ JS.dquote +:+ ".".

(** What the closure of [complete] mutates: the array [allErrors], and the
    trace of outside calls. *)
Record Acc := {
  allErrors : list string;
  trace : list Call;
}.

Definition push (msg : string) (a : Acc) : Acc :=
  {| allErrors := allErrors a ++ [msg]; trace := trace a |}.

Definition called (c : Call) (a : Acc) : Acc :=
  {| allErrors := allErrors a; trace := trace a ++ [c] |}.

(** [const allErrors: string[] = [];] and nothing called yet. *)
Definition emptyAcc : Acc := {| allErrors := []; trace := [] |}.

(** The body of [columnConfigs.forEach((col) => ...)] for the row at
    [index]; [valid] is the [let valid] of the enclosing filter callback. *)
Definition checkColumn (index : nat) (row : Row)
    (st : bool * Acc) (col : ColumnConfig.t) : bool * Acc :=
  let '(valid, acc) := st in
  (* const val = row[col.name]?.trim(); *)
  let val := JS.trim <$> row !! ColumnConfig.name col in
  (* if (col.required && !val) *)
  let '(valid, acc) :=
    if ColumnConfig.required col && negb (JS.truthy val)
    then (false, push (missingMessage index col) acc)
    else (valid, acc) in
  (* if (val && col.validate && !col.validate(val)) *)
  match val, ColumnConfig.validate col with
  | Some v, Some f =>
      if JS.truthy val then
        let acc := called (ValidateCall (ColumnConfig.name col) v) acc in
        if negb (f v)
        then (false, push (invalidMessage index col) acc)
        else (valid, acc)
      else (valid, acc)
  | _, _ => (valid, acc)
  end.

(** The filter callback [(row, index) => { let valid = true; ...; return
    valid; }]. *)
Definition checkRow (cfgs : list ColumnConfig.t) (index : nat) (row : Row)
    (acc : Acc) : bool * Acc :=
  foldl (checkColumn index row) (true, acc) cfgs.

(** [data.filter(callback)], from position [index] on. *)
Fixpoint filterRows (cfgs : list ColumnConfig.t) (index : nat)
    (data : list Row) (acc : Acc) : list Row * Acc :=
  match data with
  | [] => ([], acc)
  | row :: rest =>
      let '(valid, acc) := checkRow cfgs index row acc in
      let '(validated, acc) := filterRows cfgs (S index) rest acc in
      (if valid then row :: validated else validated, acc)
  end.

(** ** The [complete] and [error] callbacks handed to [Papa.parse] *)

(** What Papa delivers for a file: [complete(results)] with
    [results.data], or [error(error)] with [error.message]. *)
Inductive ParseResult :=
  | Complete (data : list Row)
  | Error (message : string).

(** The last branch of [complete]: the rows are stored, the file's name
    and size in MB are shown, and [onUpload] is called. *)
Definition accept (file : File.t) (validated : list Row)
    (st : State) : State * list Call :=
  let st := setParsedData validated st in
  let st := setUploadedFileName (Some (File.name file)) st in
  let st := setUploadedFileSize
    (Some (JS.toFixed 4
       (inject_Z (Z.of_N (File.size file)) / (1024 * 1024))%Q)) st in
  (st, [OnUploadCall validated]).

(** [complete: (results) => { ... }] for the dropped [file]. *)
Definition complete (props : CSVUploaderProps) (file : File.t)
    (data : list Row) (st : State) : State * list Call :=
  let '(validated, acc) :=
    filterRows (columnConfigs props) 0 data emptyAcc in
  (* if (allErrors.length > 0) *)
  if (0 <? length (allErrors acc))%nat then
    (setErrors (allErrors acc) st, trace acc)
  else
    let validationErr := validator props validated in
    let tr := trace acc ++ [ValidatorCall validated] in
    (* if (validationErr) *)
    match validationErr with
    | Some msg =>
        if JS.truthy validationErr then (setErrors [msg] st, tr)
        else let '(st, tr') := accept file validated st in (st, tr ++ tr')
    | None => let '(st, tr') := accept file validated st in (st, tr ++ tr')
    end.

(** [error: (error) => { setFileError(`Parsing error: ${error.message}`) }] *)
Definition parseError (message : string) (st : State) : State :=
  setFileError (Some ("Parsing error: " +:+ message)) st.

(** ** [onDrop] *)

(** [const maxSize = maxSizeMB ? maxSizeMB * 1024 * 1024 : null;] *)
Definition maxSize (props : CSVUploaderProps) : option Q :=
  match maxSizeMB props with
  | Some mb => if JS.truthyNumber mb then Some (mb * 1024 * 1024)%Q else None
  | None => None
  end.

(** [`File exceeds maximum size of ${(maxSize / 1024 / 1024).toFixed(2)}MB.`] *)
Definition sizeMessage (maxSize : Q) : string :=
  "File exceeds maximum size of " +:+
  JS.toFixed 2 (maxSize / 1024 / 1024)%Q +:+ "MB.".

(** [maxSize && file.size > maxSize] *)
Definition exceeds (props : CSVUploaderProps) (file : File.t) : option Q :=
  match maxSize props with
  | Some ms =>
      if JS.truthyNumber ms && JS.gt (inject_Z (Z.of_N (File.size file))) ms
      then Some ms else None
  | None => None
  end.

(** The part of [onDrop] that runs in the event handler itself: it ends
    either with nothing left to do or with [Papa.parse] started on a file. *)
Definition onDropStart (props : CSVUploaderProps) (acceptedFiles : list File.t)
    (st : State) : State * option File.t :=
  let st := setErrors [] st in
  let st := setFileError None st in
  match head acceptedFiles with
  | None => (st, None)
  | Some file =>
      match exceeds props file with
      | Some ms => (setFileError (Some (sizeMessage ms)) st, None)
      | None => (st, Some file)
      end
  end.

(** One drop event together with the callback Papa makes for it: [papa]
    gives Papa's outcome for a file. *)
Definition onDrop (props : CSVUploaderProps) (papa : File.t → ParseResult)
    (acceptedFiles : list File.t) (st : State) : State * list Call :=
  match onDropStart props acceptedFiles st with
  | (st, None) => (st, [])
  | (st, Some file) =>
      let '(st, tr) :=
        match papa file with
        | Complete data => complete props file data st
        | Error message => (parseError message st, [])
        end in
      (st, ParseCall file :: tr)
  end.

(** ** [downloadTemplate] *)

(** The anchor element that is created and clicked. *)
Record Link := {
  href : string;
  download : string;
}.

(** [columnConfigs.map((h) => h.name).join(",")] *)
Definition headerRow (props : CSVUploaderProps) : string :=
  JS.join "," (ColumnConfig.name <$> columnConfigs props).

(** [`data:text/csv;charset=utf-8,${headerRow}\n`] *)
Definition csvContent (props : CSVUploaderProps) : string :=
  "data:text/csv;charset=utf-8," +:+ headerRow props +:+ JS.newline.

Definition downloadTemplate (props : CSVUploaderProps) : Link :=
  let encodedUri := JS.encodeURI (csvContent props) in
  {| href := encodedUri; download := "template.csv" |}.

(** ** Reading the outcome of a drop *)

(** The rows [data.filter] returns and the messages it leaves in
    [allErrors], for the props' rules. *)
Definition validatedRows (props : CSVUploaderProps) (data : list Row) : list Row :=
  (filterRows (columnConfigs props) 0 data emptyAcc).1.

Definition perRowErrors (props : CSVUploaderProps) (data : list Row) : list string :=
  allErrors (filterRows (columnConfigs props) 0 data emptyAcc).2.

(** The arguments of the calls to [onUpload], to [validator] and to the
    rules' [validate] in a trace, in call order. *)
Definition uploads (tr : list Call) : list (list Row) :=
  omap (λ c, match c with OnUploadCall rows => Some rows | _ => None end) tr.

Definition validatorCalls (tr : list Call) : list (list Row) :=
  omap (λ c, match c with ValidatorCall rows => Some rows | _ => None end) tr.


Definition parseCalls (tr : list Call) : list File.t :=
  omap (λ c, match c with ParseCall f => Some f | _ => None end) tr.

(** The state [onDrop] works from once its first two statements ran. *)
Definition cleared (st : State) : State := setFileError None (setErrors [] st).

(** A drop whose first file passes the size gate and for which Papa calls
    [complete] with [data]. *)
Definition parses (props : CSVUploaderProps) (papa : File.t → ParseResult)
    (acceptedFiles : list File.t) (file : File.t) (data : list Row) : Prop :=
  head acceptedFiles = Some file ∧ exceeds props file = None ∧
  papa file = Complete data.

(** ** The validation pass as the specification words it

    One rule applied to one row yields at most one message; a row is kept when
    no rule yields one; the messages are listed row by row and, within a
    row, rule by rule. *)

Definition columnErrors (index : nat) (row : Row) (col : ColumnConfig.t) : list string :=
  match JS.trim <$> row !! ColumnConfig.name col with
  | Some v =>
      if JS.isEmpty v then
        if ColumnConfig.required col then [missingMessage index col] else []
      else
        match ColumnConfig.validate col with
        | Some f => if f v then [] else [invalidMessage index col]
        | None => []
        end
  | None => if ColumnConfig.required col then [missingMessage index col] else []
  end.

Definition columnCalls (row : Row) (col : ColumnConfig.t) : list Call :=
  match JS.trim <$> row !! ColumnConfig.name col, ColumnConfig.validate col with
  | Some v, Some _ =>
      if JS.isEmpty v then [] else [ValidateCall (ColumnConfig.name col) v]
  | _, _ => []
  end.

Definition columnOk (row : Row) (col : ColumnConfig.t) : bool :=
  match JS.trim <$> row !! ColumnConfig.name col with
  | Some v =>
      if JS.isEmpty v then negb (ColumnConfig.required col)
      else match ColumnConfig.validate col with
           | Some f => f v
           | None => true
           end
  | None => negb (ColumnConfig.required col)
  end.

Definition rowOk (cfgs : list ColumnConfig.t) (row : Row) : bool :=
  forallb (columnOk row) cfgs.

Definition rowErrors (cfgs : list ColumnConfig.t) (index : nat) (row : Row) : list string :=
  concat (map (columnErrors index row) cfgs).

Definition rowCalls (cfgs : list ColumnConfig.t) (row : Row) : list Call :=
  concat (map (columnCalls row) cfgs).

Definition errorsInOrder (cfgs : list ColumnConfig.t) (data : list Row) : list string :=
  concat (imap (rowErrors cfgs) data).

Definition callsInOrder (cfgs : list ColumnConfig.t) (data : list Row) : list Call :=
  concat (map (rowCalls cfgs) data).

(** The calls of the validation pass are calls to [validate]. *)
Definition isValidateCall (c : Call) : bool :=
  match c with ValidateCall _ _ => true | _ => false end.

(** ** The six ways a drop ends *)

Inductive Outcome (props : CSVUploaderProps) (papa : File.t → ParseResult)
    (acceptedFiles : list File.t) (st : State) : State * list Call → Prop :=
  | NoFile :
      head acceptedFiles = None →
      Outcome props papa acceptedFiles st (cleared st, [])
  | TooLarge file ms :
      head acceptedFiles = Some file →
      exceeds props file = Some ms →
      Outcome props papa acceptedFiles st
        (setFileError (Some (sizeMessage ms)) (cleared st), [])
  | ParseFailed file message :
      head acceptedFiles = Some file →
      exceeds props file = None →
      papa file = Error message →
      Outcome props papa acceptedFiles st
        (parseError message (cleared st), [ParseCall file])
  | RowsRejected file data :
      parses props papa acceptedFiles file data →
      perRowErrors props data ≠ [] →
      Outcome props papa acceptedFiles st
        (setErrors (perRowErrors props data) (cleared st),
         ParseCall file :: callsInOrder (columnConfigs props) data)
  | BatchRejected file data msg :
      parses props papa acceptedFiles file data →
      perRowErrors props data = [] →
      validator props (validatedRows props data) = Some msg →
      msg ≠ "" →
      Outcome props papa acceptedFiles st
        (setErrors [msg] (cleared st),
         ParseCall file :: callsInOrder (columnConfigs props) data ++
         [ValidatorCall (validatedRows props data)])
  | Accepted file data :
      parses props papa acceptedFiles file data →
      perRowErrors props data = [] →
      JS.truthy (validator props (validatedRows props data)) = false →
      Outcome props papa acceptedFiles st
        ((accept file (validatedRows props data) (cleared st)).1,
         ParseCall file :: callsInOrder (columnConfigs props) data ++
         [ValidatorCall (validatedRows props data);
          OnUploadCall (validatedRows props data)]).

(** ** Scenarios *)

(** [v => /^\d+$/.test(v)]: one or more characters, each a decimal digit. *)
Definition digitsOnly (v : string) : bool :=
  negb (JS.isEmpty v) &&
  forallb (λ c, bool_decide (48 ≤ N_of_ascii c ≤ 57)%N) (list_ascii_of_string v).

(** [columnConfigs = [{ name: "id", required: true }]] *)
Definition idRequired : CSVUploaderProps :=
  {| columnConfigs := [ColumnConfig.mk "id" true None None];
     maxSizeMB := None;
     validator := λ _, None |}.

(** [[{ id: "1" }, { id: "" }]] *)
Definition idRows : list (gmap string string) :=
  [ {[ "id" := "1" ]}; {[ "id" := "" ]} ].

(** [[{ id: "1" }, { id: "2" }]] *)
Definition cleanRows : list (gmap string string) :=
  [ {[ "id" := "1" ]}; {[ "id" := "2" ]} ].

(** [columnConfigs = [{ name: "age", required: false, validate: v =>
    /^\d+$/.test(v) }]] *)
Definition ageDigits : CSVUploaderProps :=
  {| columnConfigs := [ColumnConfig.mk "age" false (Some digitsOnly) None];
     maxSizeMB := None;
     validator := λ _, None |}.


Definition paddedAge : list (gmap string string) := [ {[ "age" := " 12 " ]} ].

(** The rules [id] and [age] of the template scenario. *)
Definition idAge : CSVUploaderProps :=
  {| columnConfigs := [ColumnConfig.mk "id" true None None;
                       ColumnConfig.mk "age" false (Some digitsOnly) None];
     maxSizeMB := None;
     validator := λ _, None |}.


(** [maxSizeMB = 0] and [maxSizeMB = 0.5]. *)
Definition zeroLimit : CSVUploaderProps :=
  {| columnConfigs := []; maxSizeMB := Some 0%Q; validator := λ _, None |}.

Definition halfMegabyte : CSVUploaderProps :=
  {| columnConfigs := []; maxSizeMB := Some (1 # 2)%Q; validator := λ _, None |}.

Definition someFile : File.t := File.mk "rows.csv" 10.

Definition oneByte : File.t := File.mk "one.csv" 1.

(** One byte above half a megabyte. *)
Definition bigFile : File.t := File.mk "big.csv" 524289.

(** The size gate as C8 words it: for any configured [maxSizeMB], zero
    included, a larger file gets a file error and is not parsed. *)
Definition sizeGateAsStated : Prop :=
  ∀ props papa acceptedFiles file st mb,
    maxSizeMB props = Some mb →
    head acceptedFiles = Some file →
    (mb * 1024 * 1024 < inject_Z (Z.of_N (File.size file)))%Q →
    let r := onDrop props papa acceptedFiles st in
    is_Some (fileError r.1) ∧ parseCalls r.2 = [].

(** * The rest of the component *)

(** ** Integer-valued numbers, [Array.prototype.slice] and [parseInt]

    The numbers of [DataTable] are page numbers and row counts: integers,
    [NaN] when [parseInt] finds no digit, an infinity when it finds too
    many.  Products and sums of integers are taken exactly, as they are in
    binary64 below 2^53. *)

Module JSNum.

Inductive num :=
  | Int (z : Z)
  | NaN
  | Infinity (negative : bool).

Definition mul (x y : num) : num :=
  match x, y with
  | Int a, Int b => Int (a * b)
  | Int a, Infinity s | Infinity s, Int a =>
      if (a =? 0)%Z then NaN else Infinity (xorb s (a <? 0)%Z)
  | Infinity s, Infinity t => Infinity (xorb s t)
  | _, _ => NaN
  end.

Definition add (x y : num) : num :=
  match x, y with
  | Int a, Int b => Int (a + b)
  | Int _, Infinity s | Infinity s, Int _ => Infinity s
  | Infinity s, Infinity t => if Bool.eqb s t then Infinity s else NaN
  | _, _ => NaN
  end.

(** A relative index of [slice], after [ToIntegerOrInfinity] ([NaN]
    counts as 0): negative ones count from the end, and the result is
    clamped to [0 .. len]. *)
Definition relativeIndex (len : Z) (x : num) : Z :=
  match x with
  | Int r => if (r <? 0)%Z then Z.max (len + r) 0 else Z.min r len
  | NaN => 0
  | Infinity true => 0
  | Infinity false => len
  end.

(** [Array.prototype.slice(start, end)] *)
Definition slice {A} (start finish : num) (l : list A) : list A :=
  let len := Z.of_nat (length l) in
  let k := relativeIndex len start in
  let final := relativeIndex len finish in
  take (Z.to_nat (final - k)) (drop (Z.to_nat k) l).

Definition isDigit (c : ascii) : bool :=
  bool_decide (48 ≤ N_of_ascii c ≤ 57)%N.

(** The value of the longest prefix of decimal digits, read left to
    right from [acc]. *)
Fixpoint parseDigits (acc : N) (s : string) : N :=
  match s with
  | "" => acc
  | String c rest =>
      if isDigit c then parseDigits (acc * 10 + (N_of_ascii c - 48)) rest
      else acc
  end.

Definition startsWithDigit (s : string) : bool :=
  match s with
  | "" => false
  | String c _ => isDigit c
  end.

(** The binary64 number nearest to a non-negative integer: the integer
    itself below 2^53, else its 53 leading bits rounded to nearest, ties to
    the even significand; [None] when that is beyond the largest double. *)
Definition toDouble (n : N) : option N :=
  if (n <? 2 ^ 53)%N then Some n
  else
    let e := (N.log2 n - 52)%N in
    let q := N.shiftr n e in
    let r := N.land n (N.ones e) in
    let half := (2 ^ (e - 1))%N in
    let q := if (half <? r)%N || ((r =? half)%N && N.odd q)
             then (q + 1)%N else q in
    let v := N.shiftl q e in
    if (v <? 2 ^ 1024)%N then Some v else None.

(** The text without one leading sign. *)
Definition unsigned (s : string) : string :=
  match s with
  | String c rest => if Ascii.eqb c "-" || Ascii.eqb c "+" then rest else s
  | "" => s
  end.

(** [parseInt(s, 10)]: leading white space is skipped, one sign is read,
    then the digits up to the first other character; no digit gives [NaN],
    and the integer read becomes a binary64 number.  (Past twenty
    significant digits the language lets an implementation read the later
    ones as zeros; all digits are read here.) *)
Definition parseInt10 (s : string) : num :=
  let s := JS.trimStart s in
  let negative :=
    match s with String c _ => Ascii.eqb c "-" | "" => false end in
  let s := unsigned s in
  if startsWithDigit s then
    match toDouble (parseDigits 0 s) with
    | Some n => Int (if negative then - Z.of_N n else Z.of_N n)
    | None => Infinity negative
    end
  else NaN.

End JSNum.

(** ** [DataTable]: the rows of the current page and their numbers

    The header cells ([Object.keys(data[0])]) and the cells of a row
    ([Object.values(row)]) depend on the key order of the row objects, which
    a [gmap] does not keep; they are left out. *)

Module DataTable.

(** [page] and [rowsPerPage] *)
Record t := mk {
  page : JSNum.num;
  rowsPerPage : JSNum.num;
}.

(** [useState(0)] and [useState(10)] *)
Definition initial : t := {| page := JSNum.Int 0; rowsPerPage := JSNum.Int 10 |}.

(** What is rendered: the placeholder, or the numbered rows of the page
    with the [count] handed to [TablePagination]. *)
Inductive View :=
  | Fetching
  | Table (body : list (JSNum.num * gmap string string)) (count : nat).

(** [data.slice(page * rowsPerPage, page * rowsPerPage + rowsPerPage)
         .map((row, rowIndex) => ...)], each row with the number shown in
    its first cell, [page * rowsPerPage + rowIndex + 1]. *)
Definition body (st : t) (data : list (gmap string string))
    : list (JSNum.num * gmap string string) :=
  let first := JSNum.mul (page st) (rowsPerPage st) in
  imap (λ rowIndex row,
          (JSNum.add (JSNum.add first (JSNum.Int (Z.of_nat rowIndex)))
                     (JSNum.Int 1), row))
       (JSNum.slice first (JSNum.add first (rowsPerPage st)) data).

(** [if (!data || data.length === 0) return <Fetching data>] *)
Definition view (st : t) (data : list (gmap string string)) : View :=
  match data with
  | [] => Fetching
  | _ :: _ => Table (body st data) (length data)
  end.

(** [onPageChange={(_, newPage) => setPage(newPage)}] *)
Definition onPageChange (newPage : JSNum.num) (st : t) : t :=
  {| page := newPage; rowsPerPage := rowsPerPage st |}.

(** [onRowsPerPageChange={(e) => { setRowsPerPage(parseInt(e.target.value,
    10)); setPage(0); }}] *)
Definition onRowsPerPageChange (value : string) (st : t) : t :=
  {| page := JSNum.Int 0; rowsPerPage := JSNum.parseInt10 value |}.

End DataTable.

(** ** [handleDeleteData], [handleVisualizeData] and what is rendered *)

(** The two other props these read. *)
Record PanelProps := {
  typeOfData : option string;
  alreadyUploadedPath : option string;
}.

(** The calls these two handlers make to code they do not own. *)
Inductive PanelCall :=
  | ConfirmCall (message : string)   (* window.confirm(message) *)
  | OnDeleteCall                     (* onDelete() *)
  | DataFetcherCall                  (* dataFetcher() *)
  | ConsoleLogCall.                  (* console.log("Error fetching data:", error) *)

(** How the promise of [dataFetcher()] settles. *)
Inductive FetchResult :=
  | Resolved (fetchedData : list Row)
  | Rejected.

Definition setShowUploadedDataTable (v : bool) (st : State) : State :=
  {| uploadedFileName := uploadedFileName st;
     uploadedFileSize := uploadedFileSize st;
     errors := errors st;
     parsedData := parsedData st;
     fileError := fileError st;
     showUploadedDataTable := v |}.

(** [v || d] on a [string | null]. *)
Definition orElse (v : option string) (d : string) : string :=
  match v with
  | Some s => if JS.isEmpty s then d else s
  | None => d
  end.

(** [`Are you sure to remove all your ${typeOfData || "uploaded"} data?`] *)
Definition deleteMessage (panel : PanelProps) : string :=
  "Are you sure to remove all your " +:+
  orElse (typeOfData panel) "uploaded" +:+ " data?".

(** [handleDeleteData]; [confirm] is the user's answer to the dialog. *)
Definition handleDeleteData (panel : PanelProps) (confirm : string → bool)
    (st : State) : State * list PanelCall :=
  let message := deleteMessage panel in
  if confirm message then
    let st := setParsedData [] st in
    let st := setUploadedFileName None st in
    let st := setShowUploadedDataTable false st in
    (st, [ConfirmCall message; OnDeleteCall])
  else (st, [ConfirmCall message]).

(** [handleVisualizeData], together with the [then] or [catch] callback of
    the promise when [dataFetcher] is called. *)
Definition handleVisualizeData (panel : PanelProps) (fetch : FetchResult)
    (st : State) : State * list PanelCall :=
  let st := setShowUploadedDataTable true st in
  if JS.truthy (alreadyUploadedPath panel) then
    match fetch with
    | Resolved fetchedData => (setParsedData fetchedData st, [DataFetcherCall])
    | Rejected => (st, [DataFetcherCall; ConsoleLogCall])
    end
  else (st, []).

(** The parts of the returned JSX that depend on the state: which blocks
    are present and what they show. *)
Record View := {
  (* the rules table, the drop zone and the template button *)
  uploadHalf : bool;
  (* {fileError && <Alert>{fileError}</Alert>} *)
  fileAlert : option string;
  (* {errors.length > 0 && <ul>{errors.map(...)}</ul>} *)
  validationAlert : option (list string);
  (* `File ${uploadedFileName} (${uploadedFileSize} MB) is uploaded`: the
     two values interpolated *)
  uploadedBanner : option (option string * option string);
  (* the Visualize and Delete buttons *)
  actionButtons : bool;
  (* {showUploadedDataTable && <DataTable data={parsedData} />} *)
  dataTable : option (list Row);
}.

Definition render (panel : PanelProps) (st : State) : View :=
  let saved := JS.truthy (alreadyUploadedPath panel) in
  (* alreadyUploadedPath || parsedData.length > 0 *)
  let uploaded := saved || (0 <? length (parsedData st))%nat in
  {| uploadHalf := negb saved;
     fileAlert := if JS.truthy (fileError st) then fileError st else None;
     validationAlert :=
       if (0 <? length (errors st))%nat then Some (errors st) else None;
     uploadedBanner :=
       if uploaded && negb saved
       then Some (uploadedFileName st, uploadedFileSize st) else None;
     actionButtons := uploaded;
     dataTable :=
       if uploaded && showUploadedDataTable st
       then Some (parsedData st) else None |}.

(** ** The component as a machine of user events *)

Inductive Event :=
  | Drop (acceptedFiles : list File.t) (papa : File.t → ParseResult)
  | DeleteClick (confirm : string → bool)
  | VisualizeClick (fetch : FetchResult).

Definition step (props : CSVUploaderProps) (panel : PanelProps)
    (st : State) (ev : Event) : State :=
  match ev with
  | Drop acceptedFiles papa => (onDrop props papa acceptedFiles st).1
  | DeleteClick confirm => (handleDeleteData panel confirm st).1
  | VisualizeClick fetch => (handleVisualizeData panel fetch st).1
  end.

Definition run (props : CSVUploaderProps) (panel : PanelProps)
    (events : list Event) : State :=
  foldl (step props panel) initialState events.

(** ** More scenarios *)

(** The defaults of the destructured props, as [App] mounts the
    component: no rules, no size limit, a validator that returns null. *)
Definition defaultProps : CSVUploaderProps :=
  {| columnConfigs := []; maxSizeMB := None; validator := λ _, None |}.

Definition noPath : PanelProps :=
  {| typeOfData := None; alreadyUploadedPath := None |}.

(** A file of exactly half a megabyte. *)
Definition exactlyHalf : File.t := File.mk "half.csv" 524288.

(** The props of a component whose data is saved elsewhere. *)
Definition savedElsewhere : PanelProps :=
  {| typeOfData := Some "sales"; alreadyUploadedPath := Some "/data/sales.csv" |}.

(** What every reachable state satisfies. *)
Definition wellFormed (panel : PanelProps) (st : State) : Prop :=
  (errors st = [] ∨ fileError st = None) ∧
  (JS.truthy (alreadyUploadedPath panel) = false →
   parsedData st ≠ [] →
   is_Some (uploadedFileName st) ∧ is_Some (uploadedFileSize st)).

(** Two rows agree on the columns the rules name. *)
Definition agreeOn (cfgs : list ColumnConfig.t) (row row' : Row) : Prop :=
  ∀ col, col ∈ cfgs → row !! ColumnConfig.name col = row' !! ColumnConfig.name col.

(** A character [encodeURI] can produce: one it keeps, or the percent
    sign of an escape. *)
Definition uriSafe (c : ascii) : bool := JS.uriKept c || Ascii.eqb c "%".

Fixpoint allSafe (s : string) : bool :=
  match s with
  | "" => true
  | String c rest => uriSafe c && allSafe rest
  end.

(** ** Reading a property off a row object

    Papa builds each row as a plain object, so [row[key]] finds the row's
    own cell when it has one and otherwise whatever [Object.prototype] holds
    under that name.  [checkColumn] above reads own cells only; the
    definitions here add the inherited names and the [TypeError] that
    [?.trim()] raises on them. *)

(** The property names of [Object.prototype]. *)
Definition objectPrototypeKeys : list string :=
  ["constructor"; "hasOwnProperty"; "isPrototypeOf"; "propertyIsEnumerable";
   "toLocaleString"; "toString"; "valueOf"; "__proto__";
   "__defineGetter__"; "__defineSetter__";
   "__lookupGetter__"; "__lookupSetter__"].

(** The names under which a row can hold something that is not one of its
    cells: the inherited ones, and [__parsed_extra], where Papa puts the
    surplus fields of a line as an array. *)
Definition reservedNames : list string :=
  "__parsed_extra" :: objectPrototypeKeys.

(** Every rule reads a cell or nothing. *)
Definition plainNames (cfgs : list ColumnConfig.t) : Prop :=
  ∀ col, col ∈ cfgs → ColumnConfig.name col ∉ reservedNames.

(** The value of [row[key]]: a cell, something inherited (a function, or
    the prototype object for [__proto__]), or [undefined].  (Assigning to
    [row["__proto__"]] creates no own cell, so a row Papa builds never has
    that key.) *)
Inductive Property :=
  | OwnCell (s : string)
  | Inherited
  | Undefined.

Definition getProperty (row : Row) (key : string) : Property :=
  match row !! key with
  | Some s => OwnCell s
  | None =>
      if bool_decide (key ∈ objectPrototypeKeys) then Inherited else Undefined
  end.

(** [row[col.name]?.trim()] is not a function call that can succeed on an
    inherited value: it is neither null nor undefined, so [?.] goes on, and
    it has no [trim]. *)
Definition throwsOn (row : Row) (col : ColumnConfig.t) : bool :=
  match getProperty row (ColumnConfig.name col) with
  | Inherited => true
  | OwnCell _ | Undefined => false
  end.

(** Some rule throws on the row; some row of the data makes a rule
    throw. *)
Definition rowThrows (cfgs : list ColumnConfig.t) (row : Row) : bool :=
  existsb (throwsOn row) cfgs.

Definition passThrows (cfgs : list ColumnConfig.t) (data : list Row) : bool :=
  existsb (rowThrows cfgs) data.

(** The body of the [forEach] callback; [None] is the [TypeError] of its
    first statement, and past that statement the body is [checkColumn]. *)
Definition checkColumnJS (index : nat) (row : Row)
    (st : bool * Acc) (col : ColumnConfig.t) : option (bool * Acc) :=
  (* const val = row[col.name]?.trim(); *)
  if throwsOn row col then None
  else Some (checkColumn index row st col).

(** [columnConfigs.forEach(...)]: an exception ends the loop. *)
Fixpoint forEachJS (index : nat) (row : Row) (st : bool * Acc)
    (cfgs : list ColumnConfig.t) : option (bool * Acc) :=
  match cfgs with
  | [] => Some st
  | col :: rest =>
      match checkColumnJS index row st col with
      | Some st => forEachJS index row st rest
      | None => None
      end
  end.

(** [data.filter(...)]: an exception in the callback ends the pass. *)
Fixpoint filterRowsJS (cfgs : list ColumnConfig.t) (index : nat)
    (data : list Row) (acc : Acc) : option (list Row * Acc) :=
  match data with
  | [] => Some ([], acc)
  | row :: rest =>
      match forEachJS index row (true, acc) cfgs with
      | Some (valid, acc) =>
          match filterRowsJS cfgs (S index) rest acc with
          | Some (validated, acc) =>
              Some (if valid then row :: validated else validated, acc)
          | None => None
          end
      | None => None
      end
  end.

(** How the [complete] callback ends: it returns, having set the state and
    made its calls, or the pass throws before any [setX] ran. *)
Inductive Completion :=
  | Returned (st : State) (tr : list Call)
  | Threw.

(** [complete] with the exception: when the pass runs through, the
    callback is the [complete] above. *)
Definition completeJS (props : CSVUploaderProps) (file : File.t)
    (data : list Row) (st : State) : Completion :=
  match filterRowsJS (columnConfigs props) 0 data emptyAcc with
  | Some _ =>
      let '(st, tr) := complete props file data st in Returned st tr
  | None => Threw
  end.

(** How a drop ends: as [onDrop] says, or with the state [onDropStart]
    left when the callback threw. *)
Inductive DropEnd :=
  | Finished (st : State) (tr : list Call)
  | Crashed (st : State).

Definition onDropJS (props : CSVUploaderProps) (papa : File.t → ParseResult)
    (acceptedFiles : list File.t) (st : State) : DropEnd :=
  match onDropStart props acceptedFiles st with
  | (st, None) => Finished st []
  | (st, Some file) =>
      match papa file with
      | Complete data =>
          match completeJS props file data st with
          | Returned st tr => Finished st (ParseCall file :: tr)
          | Threw => Crashed st
          end
      | Error message => Finished (parseError message st) [ParseCall file]
      end
  end.

(** [columnConfigs = [{ name: "toString", required: true }]] and a file
    whose only column is [id]. *)
Definition toStringRequired : CSVUploaderProps :=
  {| columnConfigs := [ColumnConfig.mk "toString" true None None];
     maxSizeMB := None;
     validator := λ _, None |}.

Definition oneIdRow : list (gmap string string) := [ {[ "id" := "1" ]} ].

(** ** What the browser saves for the template link

    Clicking an anchor with a [download] attribute saves the resource of
    its [href].  For a [data:] address that resource is computed from the
    text of the address alone: the fragment (everything from the first
    number sign) is not part of it, the body is what follows the first
    comma, and the body is percent-decoded into octets.  A [string] stands
    for the octets saved, one [ascii] per octet. *)

Definition hexValue (c : ascii) : option N :=
  let n := N_of_ascii c in
  if bool_decide (48 ≤ n ≤ 57)%N then Some (n - 48)%N
  else if bool_decide (65 ≤ n ≤ 70)%N then Some (n - 55)%N
  else if bool_decide (97 ≤ n ≤ 102)%N then Some (n - 87)%N
  else None.

(** Percent-decoding: [%XY] with two hexadecimal digits is one octet,
    every other character stands for itself. *)
Fixpoint percentDecode (s : string) : string :=
  match s with
  | "" => ""
  | String c tail =>
      match tail with
      | String h (String l rest) =>
          if Ascii.eqb c "%" then
            match hexValue h, hexValue l with
            | Some a, Some b =>
                String (ascii_of_N (16 * a + b)) (percentDecode rest)
            | _, _ => String c (percentDecode tail)
            end
          else String c (percentDecode tail)
      | _ => String c (percentDecode tail)
      end
  end.

(** The address without its fragment. *)
Fixpoint beforeHash (s : string) : string :=
  match s with
  | "" => ""
  | String c rest => if Ascii.eqb c "#" then "" else String c (beforeHash rest)
  end.

(** What follows the first comma, if there is one. *)
Fixpoint afterComma (s : string) : option string :=
  match s with
  | "" => None
  | String c rest => if Ascii.eqb c "," then Some rest else afterComma rest
  end.

Definition afterScheme (s : string) : option string :=
  match s with
  | String "d" (String "a" (String "t" (String "a" (String ":" rest)))) =>
      Some rest
  | _ => None
  end.

(** The octets of a [data:] address whose media type is not base64, as
    the one of the template is. *)
Definition dataUrlBody (address : string) : option string :=
  match afterScheme (beforeHash address) with
  | Some rest => percentDecode <$> afterComma rest
  | None => None
  end.

(** The file a click on the link saves: its name and its octets. *)
Definition savedFile (link : Link) : option (string * string) :=
  (λ body, (download link, body)) <$> dataUrlBody (href link).

(** The UTF-8 octets of a text whose code units are below 256. *)
Fixpoint utf8 (s : string) : string :=
  match s with
  | "" => ""
  | String c rest =>
      let n := N_of_ascii c in
      if (n <? 128)%N then String c (utf8 rest)
      else String (ascii_of_N (192 + n / 64))
             (String (ascii_of_N (128 + n mod 64)) (utf8 rest))
  end.

Fixpoint noHash (s : string) : bool :=
  match s with
  | "" => true
  | String c rest => negb (Ascii.eqb c "#") && noHash rest
  end.

(** [columnConfigs = [{ name: "a#b" }, { name: "c" }]] *)
Definition hashNames : CSVUploaderProps :=
  {| columnConfigs := [ColumnConfig.mk "a#b" false None None;
                       ColumnConfig.mk "c" false None None];
     maxSizeMB := None;
     validator := λ _, None |}.

(** ** Drops and Papa's callbacks as separate events

    [Papa.parse] reads a [File] asynchronously: [onDrop] returns once the
    parse is started, and [complete] or [error] runs later, possibly after
    other drops.  The machine keeps the parses under way; a callback is
    for one of them. *)

Record Async := {
  cells : State;
  underWay : list File.t;
}.

Inductive AsyncEvent :=
  | Dropped (acceptedFiles : list File.t)
  | Completed (i : nat) (data : list Row)      (* complete, for parse [i] *)
  | Failed (i : nat) (message : string).       (* error, for parse [i] *)

Definition asyncStart : Async := {| cells := initialState; underWay := [] |}.

Definition asyncStep (props : CSVUploaderProps) (a : Async)
    (ev : AsyncEvent) : option Async :=
  match ev with
  | Dropped acceptedFiles =>
      let '(st, started) := onDropStart props acceptedFiles (cells a) in
      Some {| cells := st;
              underWay := underWay a ++
                          match started with Some file => [file] | None => [] end |}
  | Completed i data =>
      match underWay a !! i with
      | Some file =>
          Some {| cells := (complete props file data (cells a)).1;
                  underWay := delete i (underWay a) |}
      | None => None
      end
  | Failed i message =>
      match underWay a !! i with
      | Some _ =>
          Some {| cells := parseError message (cells a);
                  underWay := delete i (underWay a) |}
      | None => None
      end
  end.

(** The same, for drops that do not overlap: a drop is taken only when no
    parse is under way. *)
Definition seqStep (props : CSVUploaderProps) (a : Async)
    (ev : AsyncEvent) : option Async :=
  match ev, underWay a with
  | Dropped _, _ :: _ => None
  | _, _ => asyncStep props a ev
  end.

Fixpoint runEvents (step : Async → AsyncEvent → option Async) (a : Async)
    (events : list AsyncEvent) : option Async :=
  match events with
  | [] => Some a
  | ev :: rest =>
      match step a ev with
      | Some a => runEvents step a rest
      | None => None
      end
  end.

(** C10 as it is worded: after any events, at most one of the two error
    cells is non-empty. *)
Definition oneSurfaceAsStated : Prop :=
  ∀ props events a,
    runEvents (asyncStep props) asyncStart events = Some a →
    errors (cells a) = [] ∨ fileError (cells a) = None.

(** The rule [id] (required) with a limit of half a megabyte. *)
Definition idRequiredHalf : CSVUploaderProps :=
  {| columnConfigs := [ColumnConfig.mk "id" true None None];
     maxSizeMB := Some (1 # 2)%Q;
     validator := λ _, None |}.

(** A small file is dropped; before Papa is done with it a file over the
    limit is dropped; then Papa delivers the rows of the first. *)
Definition overlappingDrops : list AsyncEvent :=
  [Dropped [File.mk "rows.csv" 10];
   Dropped [File.mk "big.csv" 524289];
   Completed 0 [ {[ "id" := "1" ]}; {[ "id" := "" ]} ]].

(** What holds of the machine between non-overlapping drops. *)
Definition settled (a : Async) : Prop :=
  (length (underWay a) ≤ 1)%nat ∧
  (underWay a ≠ [] → errors (cells a) = [] ∧ fileError (cells a) = None) ∧
  (errors (cells a) = [] ∨ fileError (cells a) = None).

(** ** Any order of events, any props at each of them *)

Inductive LooseEvent :=
  | LooseDrop (acceptedFiles : list File.t)
  | LooseComplete (file : File.t) (data : list Row)
  | LooseError (message : string)
  | LooseDelete (confirm : string → bool)
  | LooseVisualize (fetch : FetchResult).

(** An event with the props of the render it happens in. *)
Definition looseStep (st : State)
    (e : CSVUploaderProps * PanelProps * LooseEvent) : State :=
  let '(props, panel, ev) := e in
  match ev with
  | LooseDrop acceptedFiles => (onDropStart props acceptedFiles st).1
  | LooseComplete file data => (complete props file data st).1
  | LooseError message => parseError message st
  | LooseDelete confirm => (handleDeleteData panel confirm st).1
  | LooseVisualize fetch => (handleVisualizeData panel fetch st).1
  end.

Definition looseRun
    (events : list (CSVUploaderProps * PanelProps * LooseEvent)) : State :=
  foldl looseStep initialState events.

(** No render so far had [alreadyUploadedPath] set. *)
Definition neverSaved
    (events : list (CSVUploaderProps * PanelProps * LooseEvent)) : Prop :=
  Forall (λ e, JS.truthy (alreadyUploadedPath e.1.2) = false) events.

(** The stored rows, when there are any, came with a name and a size. *)
Definition named (st : State) : Prop :=
  parsedData st ≠ [] →
  is_Some (uploadedFileName st) ∧ is_Some (uploadedFileSize st).

(** * Lemmas *)

(** ** The loops against their pure reading *)

Lemma checkColumn_spec index row valid acc col :
  checkColumn index row (valid, acc) col =
  (valid && columnOk row col,
   {| allErrors := allErrors acc ++ columnErrors index row col;
      trace := trace acc ++ columnCalls row col |}).
Proof.
  unfold checkColumn, columnErrors, columnCalls, columnOk.
  destruct acc as [es tr]; simpl.
  destruct (row !! ColumnConfig.name col) as [raw|]; simpl.
  - destruct (JS.isEmpty (JS.trim raw)) eqn:He; simpl.
    + destruct (ColumnConfig.required col), (ColumnConfig.validate col);
        simpl; rewrite ?app_nil_r, ?andb_true_r, ?andb_false_r; done.
    + rewrite andb_false_r.
      destruct (ColumnConfig.validate col) as [f|]; simpl.
      * destruct (f (JS.trim raw)); simpl;
          rewrite ?app_nil_r, ?andb_true_r, ?andb_false_r; done.
      * rewrite !app_nil_r, andb_true_r; done.
  - destruct (ColumnConfig.required col); simpl;
      rewrite ?app_nil_r, ?andb_true_r, ?andb_false_r; done.
Qed.

Lemma foldl_checkColumn cfgs index row valid acc :
  foldl (checkColumn index row) (valid, acc) cfgs =
  (valid && rowOk cfgs row,
   {| allErrors := allErrors acc ++ rowErrors cfgs index row;
      trace := trace acc ++ rowCalls cfgs row |}).
Proof.
  revert valid acc.
  induction cfgs as [|col cfgs IH]; intros valid acc; cbn [foldl].
  - unfold rowErrors, rowCalls; simpl.
    rewrite !app_nil_r, andb_true_r. by destruct acc.
  - rewrite checkColumn_spec, IH; simpl.
    unfold rowErrors, rowCalls; simpl.
    by rewrite !app_assoc, andb_assoc.
Qed.

Lemma checkRow_spec cfgs index row acc :
  checkRow cfgs index row acc =
  (rowOk cfgs row,
   {| allErrors := allErrors acc ++ rowErrors cfgs index row;
      trace := trace acc ++ rowCalls cfgs row |}).
Proof. unfold checkRow. by rewrite foldl_checkColumn. Qed.

Lemma filterRows_spec cfgs index data acc :
  filterRows cfgs index data acc =
  (List.filter (rowOk cfgs) data,
   {| allErrors :=
        allErrors acc ++ concat (imap (λ k, rowErrors cfgs (index + k)) data);
      trace := trace acc ++ callsInOrder cfgs data |}).
Proof.
  revert index acc.
  induction data as [|row data IH]; intros index acc; cbn [filterRows].
  - unfold callsInOrder; simpl. rewrite !app_nil_r. by destruct acc.
  - rewrite checkRow_spec, IH; simpl.
    unfold callsInOrder; simpl. rewrite Nat.add_0_r, <- !app_assoc.
    assert (imap ((λ k, rowErrors cfgs (index + k)) ∘ S) data =
            imap (λ k, rowErrors cfgs (S index + k)) data) as ->
      by (apply imap_ext; intros k x _; simpl; by rewrite Nat.add_succ_r).
    done.
Qed.

Lemma perRowErrors_spec props data :
  perRowErrors props data = errorsInOrder (columnConfigs props) data.
Proof. unfold perRowErrors. by rewrite filterRows_spec. Qed.

Lemma validatedRows_spec props data :
  validatedRows props data = List.filter (rowOk (columnConfigs props)) data.
Proof. unfold validatedRows. by rewrite filterRows_spec. Qed.

Lemma filterRows_trace props data :
  trace (filterRows (columnConfigs props) 0 data emptyAcc).2 =
  callsInOrder (columnConfigs props) data.
Proof. by rewrite filterRows_spec. Qed.

(** *** No message exactly when the rule, the row, the batch passes *)

Lemma columnErrors_nil index row col :
  columnErrors index row col = [] ↔ columnOk row col = true.
Proof.
  unfold columnErrors, columnOk.
  destruct (JS.trim <$> row !! ColumnConfig.name col) as [v|].
  - destruct (JS.isEmpty v).
    + destruct (ColumnConfig.required col); simpl; split; congruence.
    + destruct (ColumnConfig.validate col) as [f|]; [|done].
      destruct (f v); split; congruence.
  - destruct (ColumnConfig.required col); simpl; split; congruence.
Qed.

Lemma columnErrors_length index row col :
  (length (columnErrors index row col) ≤ 1)%nat.
Proof.
  unfold columnErrors.
  repeat (case_match; simpl); lia.
Qed.

Lemma rowErrors_nil cfgs index row :
  rowErrors cfgs index row = [] ↔ rowOk cfgs row = true.
Proof.
  unfold rowErrors, rowOk.
  induction cfgs as [|col cfgs IH]; simpl; [done|].
  rewrite andb_true_iff, <- IH, <- columnErrors_nil.
  split.
  - intros H. apply app_eq_nil in H. exact H.
  - intros [-> ->]. done.
Qed.

Lemma errorsInOrder_nil_from cfgs data (f : nat → nat) :
  concat (imap (λ k, rowErrors cfgs (f k)) data) = [] ↔
  Forall (λ row, rowOk cfgs row = true) data.
Proof.
  revert f. induction data as [|row data IH]; intros f; simpl.
  - split; [constructor | done].
  - split.
    + intros H. apply app_eq_nil in H as [H1 H2].
      constructor; [by apply rowErrors_nil in H1 | by apply (IH (f ∘ S))].
    + intros H. apply Forall_cons in H as [H1 H2].
      apply (rowErrors_nil cfgs (f 0)) in H1. rewrite H1; simpl.
      by apply (IH (f ∘ S)).
Qed.

Lemma errorsInOrder_nil cfgs data :
  errorsInOrder cfgs data = [] ↔ Forall (λ row, rowOk cfgs row = true) data.
Proof. apply (errorsInOrder_nil_from cfgs data id). Qed.

Lemma filter_all {A} (p : A → bool) (l : list A) :
  Forall (λ x, p x = true) l → List.filter p l = l.
Proof.
  induction 1 as [|x l Hx _ IH]; simpl; [done|]. by rewrite Hx, IH.
Qed.

(** *** Where a message of one (row, rule) pair ends up *)

Lemma rowErrors_elem cfgs index row col msg :
  col ∈ cfgs → msg ∈ columnErrors index row col →
  msg ∈ rowErrors cfgs index row.
Proof.
  intros Hcol Hmsg. unfold rowErrors.
  apply list_elem_of_In, in_concat.
  exists (columnErrors index row col). split.
  - apply in_map, list_elem_of_In, Hcol.
  - by apply list_elem_of_In.
Qed.

Lemma errorsInOrder_elem cfgs data n row msg :
  data !! n = Some row → msg ∈ rowErrors cfgs n row →
  msg ∈ errorsInOrder cfgs data.
Proof.
  intros Hrow Hmsg. unfold errorsInOrder.
  apply list_elem_of_In, in_concat.
  exists (rowErrors cfgs n row). split; [|by apply list_elem_of_In].
  apply list_elem_of_In, elem_of_lookup_imap. eauto.
Qed.

Lemma filter_rowOk_elem cfgs data row :
  row ∈ List.filter (rowOk cfgs) data → rowOk cfgs row = true.
Proof.
  intros H. apply list_elem_of_In, filter_In in H. tauto.
Qed.

Lemma rowOk_column cfgs row col :
  col ∈ cfgs → rowOk cfgs row = true → columnOk row col = true.
Proof.
  intros Hcol H. unfold rowOk in H.
  rewrite forallb_forall in H. apply H, list_elem_of_In, Hcol.
Qed.

(** *** The calls of the validation pass are calls to [validate] only *)

Lemma callsInOrder_validate cfgs data :
  Forall (λ c, isValidateCall c = true) (callsInOrder cfgs data).
Proof.
  unfold callsInOrder, rowCalls.
  apply Forall_concat, Forall_map, Forall_forall; intros row _.
  apply Forall_concat, Forall_map, Forall_forall; intros col _.
  unfold columnCalls. repeat case_match; repeat constructor.
Qed.

Lemma uploads_validate tr :
  Forall (λ c, isValidateCall c = true) tr → uploads tr = [].
Proof. induction 1 as [|[] ? ? ? IH]; simpl in *; done. Qed.

Lemma validatorCalls_validate tr :
  Forall (λ c, isValidateCall c = true) tr → validatorCalls tr = [].
Proof. induction 1 as [|[] ? ? ? IH]; simpl in *; done. Qed.

Lemma uploads_app tr1 tr2 : uploads (tr1 ++ tr2) = uploads tr1 ++ uploads tr2.
Proof. apply omap_app. Qed.

Lemma validatorCalls_app tr1 tr2 :
  validatorCalls (tr1 ++ tr2) = validatorCalls tr1 ++ validatorCalls tr2.
Proof. apply omap_app. Qed.


(** *** The three ways [complete] ends *)

Lemma complete_rejects props file data st :
  perRowErrors props data ≠ [] →
  complete props file data st =
  (setErrors (perRowErrors props data) st,
   callsInOrder (columnConfigs props) data).
Proof.
  intros Hne. unfold complete.
  pose proof (filterRows_trace props data) as Htr.
  unfold perRowErrors in Hne |- *.
  destruct (filterRows (columnConfigs props) 0 data emptyAcc) as [validated acc].
  simpl in *.
  destruct (allErrors acc) as [|e es]; [done|]. simpl. by rewrite Htr.
Qed.

Lemma complete_batch_rejects props file data st msg :
  perRowErrors props data = [] →
  validator props (validatedRows props data) = Some msg → msg ≠ "" →
  complete props file data st =
  (setErrors [msg] st,
   callsInOrder (columnConfigs props) data ++
   [ValidatorCall (validatedRows props data)]).
Proof.
  intros Hnil Hv Hmsg. unfold complete.
  pose proof (filterRows_trace props data) as Htr.
  unfold perRowErrors, validatedRows in *.
  destruct (filterRows (columnConfigs props) 0 data emptyAcc) as [validated acc].
  simpl in *. rewrite Hnil, Hv, Htr; simpl.
  by destruct msg.
Qed.

Lemma complete_accepts props file data st :
  perRowErrors props data = [] →
  JS.truthy (validator props (validatedRows props data)) = false →
  complete props file data st =
  ((accept file (validatedRows props data) st).1,
   callsInOrder (columnConfigs props) data ++
   [ValidatorCall (validatedRows props data);
    OnUploadCall (validatedRows props data)]).
Proof.
  intros Hnil Hv. unfold complete.
  pose proof (filterRows_trace props data) as Htr.
  unfold perRowErrors, validatedRows in *.
  destruct (filterRows (columnConfigs props) 0 data emptyAcc) as [validated acc].
  simpl in *. rewrite Hnil, Htr; simpl.
  destruct (validator props validated) as [msg|]; simpl in *.
  - rewrite Hv. by rewrite <- app_assoc.
  - by rewrite <- app_assoc.
Qed.

Lemma onDrop_parses props papa acceptedFiles file data st :
  parses props papa acceptedFiles file data →
  onDrop props papa acceptedFiles st =
  ((complete props file data (cleared st)).1,
   ParseCall file :: (complete props file data (cleared st)).2).
Proof.
  intros (Hhead & Hsize & Hpapa). unfold onDrop, onDropStart.
  rewrite Hhead, Hsize, Hpapa. fold (cleared st).
  by destruct (complete props file data (cleared st)).
Qed.

(** *** Every drop ends in one of the six ways *)

Lemma complete_cases props data :
  perRowErrors props data ≠ [] ∨
  (perRowErrors props data = [] ∧
   ∃ msg, validator props (validatedRows props data) = Some msg ∧ msg ≠ "") ∨
  (perRowErrors props data = [] ∧
   JS.truthy (validator props (validatedRows props data)) = false).
Proof.
  destruct (perRowErrors props data) as [|e es]; [right|by left].
  destruct (validator props (validatedRows props data)) as [[|c msg]|]; simpl.
  - right; done.
  - left; split; [done|]. by exists (String c msg).
  - right; done.
Qed.

Lemma onDrop_outcome props papa acceptedFiles st :
  Outcome props papa acceptedFiles st (onDrop props papa acceptedFiles st).
Proof.
  destruct (head acceptedFiles) as [file|] eqn:Hhead.
  - destruct (exceeds props file) as [ms|] eqn:Hsize.
    + unfold onDrop, onDropStart. rewrite Hhead, Hsize.
      by eapply TooLarge.
    + destruct (papa file) as [data|message] eqn:Hpapa.
      * assert (parses props papa acceptedFiles file data) as Hp by done.
        rewrite (onDrop_parses _ _ _ _ _ _ Hp).
        destruct (complete_cases props data) as [H|[[H (msg & Hv & Hm)]|[H Hv]]].
        -- rewrite complete_rejects by done. by apply RowsRejected.
        -- rewrite (complete_batch_rejects _ _ _ _ msg) by done.
           by apply BatchRejected.
        -- rewrite complete_accepts by done. by apply Accepted.
      * unfold onDrop, onDropStart. rewrite Hhead, Hsize, Hpapa.
        by eapply ParseFailed.
  - unfold onDrop, onDropStart. rewrite Hhead. by apply NoFile.
Qed.

(** *** One rule on one row: the two failing cases *)

Lemma column_missing index row col :
  ColumnConfig.required col = true →
  (row !! ColumnConfig.name col = None ∨
   ∃ raw, row !! ColumnConfig.name col = Some raw ∧ JS.trim raw = "") →
  columnErrors index row col = [missingMessage index col] ∧
  columnCalls row col = [] ∧
  columnOk row col = false.
Proof.
  intros Hreq Hval. unfold columnErrors, columnCalls, columnOk.
  destruct Hval as [-> | (raw & -> & Hraw)]; simpl; rewrite ?Hraw, Hreq; simpl.
  - done.
  - by destruct (ColumnConfig.validate col).
Qed.


(** A message of the pair (row [n], rule [col]) is shown, the row is not
    kept and [onUpload] is not called. *)
Lemma failing_pair_rejects props file st data n row col msg :
  data !! n = Some row →
  col ∈ columnConfigs props →
  columnErrors n row col = [msg] →
  msg ∈ errors (complete props file data st).1 ∧
  (row ∉ validatedRows props data) ∧
  uploads (complete props file data st).2 = [].
Proof.
  intros Hrow Hcol Hmsg.
  assert (msg ∈ perRowErrors props data) as Hin.
  { rewrite perRowErrors_spec.
    eapply errorsInOrder_elem; [done|].
    eapply rowErrors_elem; [done|]. rewrite Hmsg. by left. }
  assert (perRowErrors props data ≠ []) as Hne.
  { intros E. rewrite E in Hin. by apply not_elem_of_nil in Hin. }
  rewrite complete_rejects by done. simpl. split_and!.
  - done.
  - rewrite validatedRows_spec. intros Hkept.
    apply filter_rowOk_elem in Hkept.
    apply (rowOk_column _ _ col) in Hkept; [|done].
    apply (columnErrors_nil n) in Hkept. by rewrite Hkept in Hmsg.
  - apply uploads_validate, callsInOrder_validate.
Qed.

(** *** Strings and [encodeURI] *)

Lemma string_app_nil (b : string) : "" +:+ b = b.
Proof. reflexivity. Qed.

Lemma string_app_cons c (a b : string) : String c a +:+ b = String c (a +:+ b).
Proof. reflexivity. Qed.

Lemma string_app_assoc (a b c : string) : (a +:+ b) +:+ c = a +:+ b +:+ c.
Proof.
  induction a as [|d a IH]; [done|].
  by rewrite !string_app_cons, IH.
Qed.

Lemma encodeURI_app a b :
  JS.encodeURI (a +:+ b) = JS.encodeURI a +:+ JS.encodeURI b.
Proof.
  induction a as [|c a IH]; [done|].
  rewrite string_app_cons. simpl.
  by rewrite IH, string_app_assoc.
Qed.

(** *** The size gate *)

Lemma scaled_nonzero (mb : Q) : ¬ (mb == 0)%Q → JS.truthyNumber (mb * 1024 * 1024) = true.
Proof.
  intros Hmb. unfold JS.truthyNumber.
  destruct (Qeq_bool (mb * 1024 * 1024) 0) eqn:E; [|done].
  apply Qeq_bool_iff in E. exfalso. apply Hmb.
  unfold Qeq in *. simpl in *. lia.
Qed.

Lemma maxSize_zero props mb :
  maxSizeMB props = Some mb → (mb == 0)%Q → maxSize props = None.
Proof.
  intros Hmb Hz. unfold maxSize, JS.truthyNumber. rewrite Hmb.
  apply Qeq_bool_iff in Hz. by rewrite Hz.
Qed.

Lemma exceeds_spec props file mb :
  maxSizeMB props = Some mb →
  ¬ (mb == 0)%Q →
  (mb * 1024 * 1024 < inject_Z (Z.of_N (File.size file)))%Q →
  exceeds props file = Some (mb * 1024 * 1024)%Q.
Proof.
  intros Hmb Hnz Hlt. unfold exceeds, maxSize. rewrite Hmb.
  assert (JS.truthyNumber mb = true) as Ht.
  { unfold JS.truthyNumber. destruct (Qeq_bool mb 0) eqn:E; [|done].
    by apply Qeq_bool_iff in E. }
  rewrite Ht, scaled_nonzero by done. simpl.
  unfold JS.gt.
  destruct (Qle_bool (inject_Z (Z.of_N (File.size file))) (mb * 1024 * 1024))
    eqn:E; [|done].
  apply Qle_bool_iff in E. exfalso. by apply (Qlt_not_le _ _ Hlt).
Qed.

(** *** The calls to [validate] made by [complete] *)




(** *** The pass with its exception *)

Lemma forEachJS_spec index row st cfgs :
  forEachJS index row st cfgs =
  if rowThrows cfgs row then None
  else Some (foldl (checkColumn index row) st cfgs).
Proof.
  revert st. unfold rowThrows.
  induction cfgs as [|col cfgs IH]; intros st; simpl; [done|].
  unfold checkColumnJS. destruct (throwsOn row col); simpl; [done|].
  apply IH.
Qed.

Lemma filterRowsJS_spec cfgs index data acc :
  filterRowsJS cfgs index data acc =
  if passThrows cfgs data then None
  else Some (filterRows cfgs index data acc).
Proof.
  revert index acc. unfold passThrows.
  induction data as [|row data IH]; intros index acc; simpl; [done|].
  rewrite forEachJS_spec. destruct (rowThrows cfgs row); simpl; [done|].
  unfold checkRow.
  destruct (foldl (checkColumn index row) (true, acc) cfgs) as [valid acc'].
  rewrite IH. destruct (existsb (rowThrows cfgs) data); [done|].
  by destruct (filterRows cfgs (S index) data acc').
Qed.

Lemma completeJS_spec props file data st :
  completeJS props file data st =
  if passThrows (columnConfigs props) data then Threw
  else Returned (complete props file data st).1 (complete props file data st).2.
Proof.
  unfold completeJS. rewrite filterRowsJS_spec.
  destruct (passThrows (columnConfigs props) data); [done|].
  by destruct (complete props file data st).
Qed.

Lemma throwsOn_true row col :
  throwsOn row col = true ↔
  ColumnConfig.name col ∈ objectPrototypeKeys ∧
  row !! ColumnConfig.name col = None.
Proof.
  unfold throwsOn, getProperty.
  destruct (row !! ColumnConfig.name col) as [s|].
  - split; [done | by intros [_ ?]].
  - case_bool_decide as Hin; split; try done. by intros [? _].
Qed.

Lemma passThrows_true cfgs data :
  passThrows cfgs data = true ↔
  ∃ row col, row ∈ data ∧ col ∈ cfgs ∧
    ColumnConfig.name col ∈ objectPrototypeKeys ∧
    row !! ColumnConfig.name col = None.
Proof.
  unfold passThrows, rowThrows. rewrite existsb_exists. split.
  - intros (row & Hrow & Hex). apply existsb_exists in Hex as (col & Hcol & Ht).
    apply throwsOn_true in Ht as [? ?].
    exists row, col.
    split_and!; [by apply list_elem_of_In | by apply list_elem_of_In
                 | done | done].
  - intros (row & col & Hrow & Hcol & Hin & Hnone).
    exists row. split; [by apply list_elem_of_In|].
    apply existsb_exists. exists col. split; [by apply list_elem_of_In|].
    by apply throwsOn_true.
Qed.

Lemma passThrows_plain_names cfgs data :
  plainNames cfgs → passThrows cfgs data = false.
Proof.
  intros Hplain. destruct (passThrows cfgs data) eqn:E; [|done].
  apply passThrows_true in E as (row & col & _ & Hcol & Hin & _).
  destruct (Hplain col Hcol). by right.
Qed.



(** ** The model on concrete inputs *)

Example trim_both_ends : JS.trim "  a b  " = "a b".
Proof. reflexivity. Qed.

Example trim_blank : JS.trim "   " = "".
Proof. reflexivity. Qed.

Example ofIndex_decimal : JS.ofIndex 12 = "12".
Proof. reflexivity. Qed.

Example toFixed_whole : JS.toFixed 2 5 = "5.00".
Proof. reflexivity. Qed.

Example toFixed_half : JS.toFixed 2 (1 # 2) = "0.50".
Proof. reflexivity. Qed.

Example toFixed_small_negative : JS.toFixed 2 (-1 # 1000) = "-0.00".
Proof. reflexivity. Qed.

Example toFixed_four : JS.toFixed 4 (100000 # 1048576) = "0.0954".
Proof. reflexivity. Qed.

Example encodeURI_space_and_hash : JS.encodeURI "first name#1" = "first%20name#1".
Proof. reflexivity. Qed.

(** A value that fails the digits-only check as typed but passes once
    trimmed: the row is accepted. *)
Example padded_digits_accepted :
  digitsOnly " 12 " = false ∧
  onDrop ageDigits (λ _, Complete paddedAge) [someFile] initialState =
  ({| uploadedFileName := Some "rows.csv";
      uploadedFileSize := Some "0.0000";
      errors := [];
      parsedData := paddedAge;
      fileError := None;
      showUploadedDataTable := false |},
   [ParseCall someFile; ValidateCall "age" "12";
    ValidatorCall paddedAge; OnUploadCall paddedAge]).
Proof. split; reflexivity. Qed.

(** With [maxSizeMB = 0] no limit is in force: the file is parsed. *)
Example zero_limit_is_no_limit :
  maxSize zeroLimit = None ∧
  onDrop zeroLimit (λ _, Complete []) [oneByte] initialState =
  ({| uploadedFileName := Some "one.csv";
      uploadedFileSize := Some "0.0000";
      errors := [];
      parsedData := [];
      fileError := None;
      showUploadedDataTable := false |},
   [ParseCall oneByte; ValidatorCall []; OnUploadCall []]).
Proof. split; reflexivity. Qed.

(** A drop with no file only clears the two error cells. *)
Example empty_drop st : onDrop idRequired (λ _, Complete []) [] st = (cleared st, []).
Proof. reflexivity. Qed.

(** * The claims *)



(** C2. The claim holds of the code except where the rule's name is a
    property of [Object.prototype].  For the required rule [toString] and
    a file whose rows have no such column, the value is absent, yet no
    [Row 2: Missing required field "toString".] is reported: reading the
    inherited function and calling its missing [trim] throws inside
    [complete], so the drop ends with an empty error list, no file error
    and no call to [onUpload]. *)
Theorem required_rule_named_toString_throws :
  oneIdRow !! 0%nat = Some ({[ "id" := "1" ]} : gmap string string) ∧
  ({[ "id" := "1" ]} : gmap string string) !! "toString" = None ∧
  getProperty {[ "id" := "1" ]} "toString" = Inherited ∧
  ∀ file st,
    completeJS toStringRequired file oneIdRow st = Threw ∧
    onDropJS toStringRequired (λ _, Complete oneIdRow) [file] st =
      Crashed (cleared st) ∧
    errors (cleared st) = [] ∧ fileError (cleared st) = None.
Proof.
  split_and!; try reflexivity.
  intros file st. split_and!; reflexivity.
Qed.









(** C7. The link is named [template.csv], and for the rules [id] and
    [age] the file saved holds the one line [id,age]; but the address is
    built with [encodeURI], which leaves the number sign as it is, and a
    [data:] address ends at its first number sign.  For the rules [a#b]
    and [c] the header line is [a#b,c], the address is
    [data:text/csv;charset=utf-8,a#b,c%0A], and the file saved holds the
    single octet [a]: not the header line. *)
Theorem template_content_is_cut_at_number_sign :
  headerRow hashNames = "a#b,c" ∧
  href (downloadTemplate hashNames) = "data:text/csv;charset=utf-8,a#b,c%0A" ∧
  savedFile (downloadTemplate hashNames) = Some ("template.csv", "a") ∧
  savedFile (downloadTemplate hashNames) ≠
    Some ("template.csv", headerRow hashNames +:+ JS.newline) ∧
  savedFile (downloadTemplate idAge) =
    Some ("template.csv", "id,age" +:+ JS.newline).
Proof.
  split_and!; try reflexivity.
  vm_compute. discriminate.
Qed.

(** C8 as worded fails.  With [maxSizeMB = 0] the conditional that
    computes [maxSize] takes its null branch: a one-byte file, larger than
    0 * 1024 * 1024, is parsed and no file error is set. *)
Lemma size_gate_zero_counterexample : ¬ sizeGateAsStated.
Proof.
  intros H.
  destruct (H zeroLimit (λ _, Complete []) [oneByte] oneByte initialState 0%Q)
    as [[msg Hmsg] _]; [reflexivity | reflexivity | reflexivity |].
  vm_compute in Hmsg. discriminate.
Qed.

(** C8 (amended). When [maxSizeMB] is a number other than zero and the
    first file's size in bytes is strictly above [maxSizeMB * 1024 * 1024],
    the drop sets the file error to the single size message and ends
    there: Papa is not called, no rule and no validator runs, the error list
    stays empty and the stored rows are untouched. *)
Theorem size_gate_blocks_parsing props papa acceptedFiles file st mb :
  maxSizeMB props = Some mb →
  ¬ (mb == 0)%Q →
  head acceptedFiles = Some file →
  (mb * 1024 * 1024 < inject_Z (Z.of_N (File.size file)))%Q →
  let r := onDrop props papa acceptedFiles st in
  fileError r.1 =
    Some ("File exceeds maximum size of " +:+
          JS.toFixed 2 (mb * 1024 * 1024 / 1024 / 1024)%Q +:+ "MB.") ∧
  r.2 = [] ∧
  errors r.1 = [] ∧
  parsedData r.1 = parsedData st.
Proof.
  intros Hmb Hnz Hhead Hlt r; subst r.
  unfold onDrop, onDropStart.
  by rewrite Hhead, (exceeds_spec _ _ mb).
Qed.

Lemma size_gate_blocks_parsing_witness :
  ¬ (1 # 2 == 0)%Q ∧
  ((1 # 2) * 1024 * 1024 < inject_Z (Z.of_N (File.size bigFile)))%Q ∧
  fileError (onDrop halfMegabyte (λ _, Complete []) [bigFile] initialState).1 =
    Some "File exceeds maximum size of 0.50MB.".
Proof.
  assert (¬ (1 # 2 == 0)%Q) as Hnz by (intros E; discriminate E).
  assert ((1 # 2) * 1024 * 1024 < inject_Z (Z.of_N (File.size bigFile)))%Q
    as Hlt by reflexivity.
  split_and!; [exact Hnz | exact Hlt |].
  exact (proj1 (size_gate_blocks_parsing halfMegabyte (λ _, Complete [])
    [bigFile] bigFile initialState (1 # 2)%Q eq_refl Hnz eq_refl Hlt)).
Defined.



(** *** Drops that do not overlap *)

Lemma complete_keeps_fileError props file data s :
  fileError (complete props file data s).1 = fileError s.
Proof.
  destruct (complete_cases props data) as [H|[[H (msg & Hv & Hm)]|[H Hv]]].
  - by rewrite complete_rejects.
  - by rewrite (complete_batch_rejects _ _ _ _ msg).
  - by rewrite complete_accepts.
Qed.

Lemma onDropStart_clears props acceptedFiles st :
  errors (onDropStart props acceptedFiles st).1 = [] ∧
  (is_Some (onDropStart props acceptedFiles st).2 →
   fileError (onDropStart props acceptedFiles st).1 = None).
Proof.
  unfold onDropStart. destruct (head acceptedFiles) as [file|]; simpl.
  - destruct (exceeds props file); simpl; (split; [done|]).
    + by intros [? ?].
    + done.
  - split; [done|]. by intros [? ?].
Qed.

Lemma seqStep_settled props a ev a' :
  settled a → seqStep props a ev = Some a' → settled a'.
Proof.
  intros (Hlen & Hway & Hone) Hstep.
  destruct ev as [acceptedFiles|i data|i message].
  - unfold seqStep in Hstep.
    destruct (underWay a) as [|f fs] eqn:Hu; [|done].
    unfold asyncStep in Hstep. rewrite Hu in Hstep.
    destruct (onDropStart_clears props acceptedFiles (cells a)) as [He Hf].
    destruct (onDropStart props acceptedFiles (cells a)) as [st started].
    simpl in *. injection Hstep as <-.
    unfold settled; simpl. destruct started as [file|]; simpl.
    + split_and!; [lia | intros _; split; [done | by apply Hf] | by left].
    + split_and!; [lia | done | by left].
  - assert (asyncStep props a (Completed i data) = Some a') as Hs
      by (unfold seqStep in Hstep; by destruct (underWay a)).
    simpl in Hs.
    destruct (underWay a) as [|f fs] eqn:Hu; [done|].
    destruct fs; [|simpl in Hlen; lia].
    destruct i as [|i]; [|done]. simpl in Hs. injection Hs as <-.
    destruct Hway as [_ Hf]; [done|].
    unfold settled; simpl. split_and!; [lia | done |].
    right. by rewrite complete_keeps_fileError.
  - assert (asyncStep props a (Failed i message) = Some a') as Hs
      by (unfold seqStep in Hstep; by destruct (underWay a)).
    simpl in Hs.
    destruct (underWay a) as [|f fs] eqn:Hu; [done|].
    destruct fs; [|simpl in Hlen; lia].
    destruct i as [|i]; [|done]. simpl in Hs. injection Hs as <-.
    destruct Hway as [He _]; [done|].
    unfold settled; simpl. split_and!; [lia | done | by left].
Qed.

Lemma seqRun_settled props events : ∀ a a',
  settled a → runEvents (seqStep props) a events = Some a' → settled a'.
Proof.
  induction events as [|ev events IH]; intros a a' Ha Hrun; simpl in Hrun.
  - by injection Hrun as <-.
  - destruct (seqStep props a ev) as [a1|] eqn:Hstep; [|done].
    eapply IH; [|exact Hrun]. by eapply seqStep_settled.
Qed.

(** C10 as worded fails.  A small file is dropped; while Papa reads it,
    a file over the limit is dropped, which sets the file error; then
    [complete] runs for the first file and sets the error list: both cells
    are non-empty. *)
Lemma overlapping_drops_counterexample : ¬ oneSurfaceAsStated.
Proof.
  intros H.
  destruct (H idRequiredHalf overlappingDrops
              {| cells := setErrors
                   ["Row 3: Missing required field " +:+ JS.dquote +:+ "id"
                    +:+ JS.dquote +:+ "."]
                   (setFileError (Some "File exceeds maximum size of 0.50MB.")
                      initialState);
                 underWay := [] |} eq_refl) as [He|Hf].
  - discriminate He.
  - discriminate Hf.
Qed.

(** C10 (amended). A drop starts by emptying the error list and the file
    error, so its outcome does not depend on what they held.  A file over
    the size limit and a parse failure set the file error and leave the
    error list empty; the [complete] callback never touches the file
    error.  So after a drop taken with its own callback, and after any
    events in which no drop is handled while a parse is under way, the
    error list is empty or the file error is null. *)
Theorem one_error_surface props papa acceptedFiles st :
  let r := onDrop props papa acceptedFiles st in
  errors (cleared st) = [] ∧ fileError (cleared st) = None ∧
  r = onDrop props papa acceptedFiles (cleared st) ∧
  (∀ file ms,
     head acceptedFiles = Some file → exceeds props file = Some ms →
     errors r.1 = [] ∧ fileError r.1 = Some (sizeMessage ms)) ∧
  (∀ file message,
     head acceptedFiles = Some file → exceeds props file = None →
     papa file = Error message →
     errors r.1 = [] ∧ fileError r.1 = Some ("Parsing error: " +:+ message)) ∧
  (∀ file data s, fileError (complete props file data s).1 = fileError s) ∧
  (errors r.1 = [] ∨ fileError r.1 = None) ∧
  (∀ events a,
     runEvents (seqStep props) asyncStart events = Some a →
     errors (cells a) = [] ∨ fileError (cells a) = None).
Proof.
  intros r; subst r. split_and!; try done.
  - intros file ms Hhead Hsize. unfold onDrop, onDropStart.
    by rewrite Hhead, Hsize.
  - intros file message Hhead Hsize Hpapa. unfold onDrop, onDropStart.
    by rewrite Hhead, Hsize, Hpapa.
  - apply complete_keeps_fileError.
  - destruct (onDrop_outcome props papa acceptedFiles st); simpl; auto.
  - intros events a Hrun.
    assert (settled asyncStart) as Hstart.
    { unfold settled; simpl. split_and!; [lia | done | by left]. }
    by destruct (seqRun_settled props events _ _ Hstart Hrun) as (_ & _ & ?).
Qed.

Lemma one_error_surface_witness :
  runEvents (seqStep idRequiredHalf) asyncStart
    [Dropped [File.mk "rows.csv" 10];
     Completed 0 [ {[ "id" := "1" ]}; {[ "id" := "" ]} ];
     Dropped [File.mk "big.csv" 524289]] =
  Some {| cells := setFileError (Some "File exceeds maximum size of 0.50MB.")
                     initialState;
          underWay := [] |} ∧
  (errors (setFileError (Some "File exceeds maximum size of 0.50MB.")
             initialState) = [] ∨
   fileError (setFileError (Some "File exceeds maximum size of 0.50MB.")
                initialState) = None).
Proof.
  assert (runEvents (seqStep idRequiredHalf) asyncStart
            [Dropped [File.mk "rows.csv" 10];
             Completed 0 [ {[ "id" := "1" ]}; {[ "id" := "" ]} ];
             Dropped [File.mk "big.csv" 524289]] =
          Some {| cells := setFileError
                             (Some "File exceeds maximum size of 0.50MB.")
                             initialState;
                  underWay := [] |}) as Hrun by reflexivity.
  split; [exact Hrun|].
  exact (proj2 (proj2 (proj2 (proj2 (proj2 (proj2 (proj2
    (one_error_surface idRequiredHalf (λ _, Complete []) [] initialState)))))))
    _ _ Hrun).
Defined.

(** * Further properties of the component *)

(** ** The validation pass *)

Lemma column_agree index row row' col :
  row !! ColumnConfig.name col = row' !! ColumnConfig.name col →
  columnErrors index row col = columnErrors index row' col ∧
  columnCalls row col = columnCalls row' col ∧
  columnOk row col = columnOk row' col.
Proof.
  intros H. unfold columnErrors, columnCalls, columnOk. by rewrite H.
Qed.

Lemma row_agree cfgs index row row' :
  agreeOn cfgs row row' →
  rowErrors cfgs index row = rowErrors cfgs index row' ∧
  rowCalls cfgs row = rowCalls cfgs row' ∧
  rowOk cfgs row = rowOk cfgs row'.
Proof.
  unfold agreeOn, rowErrors, rowCalls, rowOk.
  induction cfgs as [|col cfgs IH]; intros H; simpl; [done|].
  destruct (column_agree index row row' col) as (-> & -> & ->).
  { apply H. by left. }
  destruct IH as (-> & -> & ->); [|done].
  intros c Hc. apply H. by right.
Qed.

Lemma rows_agree cfgs (f : nat → nat) data data' :
  Forall2 (agreeOn cfgs) data data' →
  concat (imap (λ k, rowErrors cfgs (f k)) data) =
    concat (imap (λ k, rowErrors cfgs (f k)) data') ∧
  callsInOrder cfgs data = callsInOrder cfgs data' ∧
  Forall2 (agreeOn cfgs) (List.filter (rowOk cfgs) data)
                         (List.filter (rowOk cfgs) data').
Proof.
  intros H. revert f. unfold callsInOrder.
  induction H as [|row row' data data' Hrow _ IH]; intros f; simpl.
  - split_and!; [done | done | constructor].
  - destruct (row_agree cfgs (f 0%nat) row row' Hrow) as (-> & -> & ->).
    destruct (IH (f ∘ S)) as (IHe & -> & IHf).
    split_and!; [f_equal; exact IHe | done |].
    destruct (rowOk cfgs row'); [by constructor | done].
Qed.

(** X1. Only the columns named by a rule matter: two files whose rows
    agree, position by position, on those columns get the same messages and
    the same calls to [validate], and the same positions are kept. *)
Theorem unnamed_columns_are_ignored props data data' :
  Forall2 (agreeOn (columnConfigs props)) data data' →
  perRowErrors props data = perRowErrors props data' ∧
  callsInOrder (columnConfigs props) data =
    callsInOrder (columnConfigs props) data' ∧
  Forall2 (agreeOn (columnConfigs props))
          (validatedRows props data) (validatedRows props data').
Proof.
  intros H. rewrite !perRowErrors_spec, !validatedRows_spec.
  apply (rows_agree _ id _ _ H).
Qed.

Lemma unnamed_columns_are_ignored_witness :
  let data : list (gmap string string) := [ {[ "id" := "" ]} ] in
  let data' : list (gmap string string) :=
    [ {[ "id" := ""; "note" := "kept for later" ]} ] in
  Forall2 (agreeOn (columnConfigs idRequired)) data data' ∧
  perRowErrors idRequired data = perRowErrors idRequired data'.
Proof.
  intros data data'.
  assert (Forall2 (agreeOn (columnConfigs idRequired)) data data') as H.
  { repeat constructor. intros col Hcol.
    apply list_elem_of_singleton in Hcol as ->. reflexivity. }
  split; [exact H|].
  exact (proj1 (unnamed_columns_are_ignored idRequired data data' H)).
Defined.

Lemma rowErrors_length cfgs index row :
  (length (rowErrors cfgs index row) ≤ length cfgs)%nat.
Proof.
  unfold rowErrors. induction cfgs as [|col cfgs IH]; simpl; [done|].
  rewrite length_app. pose proof (columnErrors_length index row col). lia.
Qed.

Lemma errors_length_from cfgs (f : nat → nat) data :
  (length (concat (imap (λ k, rowErrors cfgs (f k)) data)) ≤
   length data * length cfgs)%nat.
Proof.
  revert f. induction data as [|row data IH]; intros f; simpl; [done|].
  rewrite length_app.
  pose proof (rowErrors_length cfgs (f 0%nat) row).
  pose proof (IH (f ∘ S)) as IH'.
  change (imap ((λ k, rowErrors cfgs (f k)) ∘ S) data)
    with (imap (λ k, rowErrors cfgs ((f ∘ S) k)) data).
  lia.
Qed.

(** X2. The error list is never longer than rows times rules: each
    pair of a row and a rule adds at most one message. *)
Theorem at_most_one_message_per_cell props data :
  (length (perRowErrors props data) ≤
   length data * length (columnConfigs props))%nat.
Proof.
  rewrite perRowErrors_spec. apply (errors_length_from _ id).
Qed.

Lemma filter_rowOk_Forall cfgs data :
  Forall (λ row, rowOk cfgs row = true) (List.filter (rowOk cfgs) data).
Proof.
  apply Forall_forall. intros row Hrow. by eapply filter_rowOk_elem.
Qed.

(** X3. Dropping the rows that were flagged leaves a file that passes:
    on the rows the pass keeps, a second pass collects no message and
    keeps every row. *)
Theorem kept_rows_pass_again props data :
  perRowErrors props (validatedRows props data) = [] ∧
  validatedRows props (validatedRows props data) = validatedRows props data.
Proof.
  rewrite perRowErrors_spec, !validatedRows_spec. split.
  - apply errorsInOrder_nil, filter_rowOk_Forall.
  - apply filter_all, filter_rowOk_Forall.
Qed.

(** ** A drop as a whole *)

Lemma accept_fields file rows st :
  let st' := (accept file rows st).1 in
  parsedData st' = rows ∧
  uploadedFileName st' = Some (File.name file) ∧
  is_Some (uploadedFileSize st') ∧
  errors st' = errors st ∧ fileError st' = fileError st ∧
  showUploadedDataTable st' = showUploadedDataTable st.
Proof. simpl. split_and!; eauto. Qed.

Lemma no_errors_keeps_all props data :
  perRowErrors props data = [] → validatedRows props data = data.
Proof.
  intros H. rewrite validatedRows_spec.
  apply filter_all, errorsInOrder_nil. by rewrite <- perRowErrors_spec.
Qed.

Lemma callsInOrder_no_rules data : callsInOrder [] data = [].
Proof.
  unfold callsInOrder. induction data as [|row data IH]; simpl; done.
Qed.

(** X4. Without rules nothing is checked: when [columnConfigs] is empty
    (its default) and the batch validator returns null or the empty string
    (the default one does), every file that passes the size gate and that
    Papa parses is accepted whole, whatever its rows hold. *)
Theorem no_rules_accept_every_row props papa acceptedFiles file data st :
  columnConfigs props = [] →
  parses props papa acceptedFiles file data →
  JS.truthy (validator props data) = false →
  let r := onDrop props papa acceptedFiles st in
  r.2 = [ParseCall file; ValidatorCall data; OnUploadCall data] ∧
  parsedData r.1 = data ∧ errors r.1 = [] ∧ fileError r.1 = None.
Proof.
  intros Hcfg Hp Hv r; subst r.
  assert (perRowErrors props data = []) as Hnil.
  { rewrite perRowErrors_spec, Hcfg. apply errorsInOrder_nil.
    apply Forall_forall. done. }
  assert (validatedRows props data = data) as Hall
    by by apply no_errors_keeps_all.
  rewrite (onDrop_parses _ _ _ _ _ _ Hp), complete_accepts;
    rewrite ?Hall; try done.
  simpl. rewrite Hcfg, callsInOrder_no_rules. done.
Qed.

Lemma no_rules_accept_every_row_witness :
  parses defaultProps (λ _, Complete paddedAge) [someFile] someFile paddedAge ∧
  (onDrop defaultProps (λ _, Complete paddedAge) [someFile] initialState).2 =
    [ParseCall someFile; ValidatorCall paddedAge; OnUploadCall paddedAge].
Proof.
  assert (parses defaultProps (λ _, Complete paddedAge) [someFile] someFile
            paddedAge) as Hp by (repeat split).
  split; [exact Hp|].
  exact (proj1 (no_rules_accept_every_row defaultProps (λ _, Complete paddedAge)
    [someFile] someFile paddedAge initialState eq_refl Hp eq_refl)).
Defined.

Lemma uploads_after_validates tr rest :
  uploads (callsInOrder tr rest) = [].
Proof. apply uploads_validate, callsInOrder_validate. Qed.

Lemma validatorCalls_after_validates cfgs data :
  validatorCalls (callsInOrder cfgs data) = [].
Proof. apply validatorCalls_validate, callsInOrder_validate. Qed.

(** The calls to [onUpload] and to [validator] in each of the six
    outcomes. *)
Lemma outcome_calls props papa acceptedFiles st r :
  Outcome props papa acceptedFiles st r →
  (uploads r.2 = [] ∧ validatorCalls r.2 = []) ∨
  (∃ file data msg,
     parses props papa acceptedFiles file data ∧
     perRowErrors props data = [] ∧
     validator props data = Some msg ∧ msg ≠ "" ∧
     uploads r.2 = [] ∧ validatorCalls r.2 = [data] ∧
     r.1 = setErrors [msg] (cleared st)) ∨
  (∃ file data,
     parses props papa acceptedFiles file data ∧
     perRowErrors props data = [] ∧
     JS.truthy (validator props data) = false ∧
     uploads r.2 = [data] ∧ validatorCalls r.2 = [data] ∧
     r.1 = (accept file data (cleared st)).1).
Proof.
  intros [| | | file data Hp Hne | file data msg Hp Hnil Hv Hm
          | file data Hp Hnil Hv]; simpl.
  - by left.
  - by left.
  - by left.
  - left. unfold uploads, validatorCalls; simpl.
    fold (uploads (callsInOrder (columnConfigs props) data)).
    fold (validatorCalls (callsInOrder (columnConfigs props) data)).
    by rewrite uploads_after_validates, validatorCalls_after_validates.
  - right; left. rewrite (no_errors_keeps_all _ _ Hnil) in *.
    exists file, data, msg. split_and!; try done.
    + unfold uploads; simpl. fold (uploads (callsInOrder (columnConfigs props) data ++ [ValidatorCall data])).
      by rewrite uploads_app, uploads_after_validates.
    + unfold validatorCalls; simpl. fold (validatorCalls (callsInOrder (columnConfigs props) data ++ [ValidatorCall data])).
      by rewrite validatorCalls_app, validatorCalls_after_validates.
  - right; right. rewrite (no_errors_keeps_all _ _ Hnil) in *.
    exists file, data. split_and!; try done.
    + unfold uploads; simpl. fold (uploads (callsInOrder (columnConfigs props) data ++ [ValidatorCall data; OnUploadCall data])).
      by rewrite uploads_app, uploads_after_validates.
    + unfold validatorCalls; simpl. fold (validatorCalls (callsInOrder (columnConfigs props) data ++ [ValidatorCall data; OnUploadCall data])).
      by rewrite validatorCalls_app, validatorCalls_after_validates.
Qed.

(** X5. The batch validator and [onUpload] only ever see a whole file:
    whenever a drop calls one of them, the argument is the complete list of
    rows Papa delivered, in order, no row of which drew a message; and
    [onUpload] is called at most once, only after the validator returned a
    falsy result on these rows, with the same rows stored and both error
    cells empty. *)
Theorem callbacks_get_the_whole_file props papa acceptedFiles st :
  let r := onDrop props papa acceptedFiles st in
  (∀ rows, rows ∈ validatorCalls r.2 →
     ∃ file, parses props papa acceptedFiles file rows ∧
       perRowErrors props rows = [] ∧ validatorCalls r.2 = [rows]) ∧
  (∀ rows, rows ∈ uploads r.2 →
     ∃ file, parses props papa acceptedFiles file rows ∧
       perRowErrors props rows = [] ∧
       JS.truthy (validator props rows) = false ∧
       uploads r.2 = [rows] ∧ parsedData r.1 = rows ∧
       errors r.1 = [] ∧ fileError r.1 = None).
Proof.
  intros r; subst r.
  destruct (outcome_calls _ _ _ _ _ (onDrop_outcome props papa acceptedFiles st))
    as [[Hu Hvc] | [(file & data & msg & Hp & Hnil & Hv & Hm & Hu & Hvc & Hst)
       | (file & data & Hp & Hnil & Hv & Hu & Hvc & Hst)]];
    rewrite ?Hu, ?Hvc; split.
  - intros rows Hin. by apply not_elem_of_nil in Hin.
  - intros rows Hin. by apply not_elem_of_nil in Hin.
  - intros rows ->%list_elem_of_singleton. by exists file.
  - intros rows Hin. by apply not_elem_of_nil in Hin.
  - intros rows ->%list_elem_of_singleton. by exists file.
  - intros rows ->%list_elem_of_singleton. exists file. by rewrite Hst.
Qed.

Lemma callbacks_get_the_whole_file_witness :
  cleanRows ∈
    uploads (onDrop idRequired (λ _, Complete cleanRows) [someFile] initialState).2 ∧
  parsedData (onDrop idRequired (λ _, Complete cleanRows) [someFile]
                initialState).1 = cleanRows.
Proof.
  assert (cleanRows ∈ uploads (onDrop idRequired (λ _, Complete cleanRows)
            [someFile] initialState).2) as Hin by (vm_compute; left).
  split; [exact Hin|].
  destruct (proj2 (callbacks_get_the_whole_file idRequired
    (λ _, Complete cleanRows) [someFile] initialState) cleanRows Hin)
    as (file & _ & _ & _ & _ & H & _).
  exact H.
Defined.



Lemma render_fileAlert panel st :
  fileAlert (render panel st) =
  if JS.truthy (fileError st) then fileError st else None.
Proof. reflexivity. Qed.

Lemma render_validationAlert panel st :
  validationAlert (render panel st) =
  if (0 <? length (errors st))%nat then Some (errors st) else None.
Proof. reflexivity. Qed.




(** X7. A drop that does not end in [onUpload] leaves the earlier upload
    alone: the stored rows, the file name and the size text are unchanged,
    so the banner and the table (when shown) still show the earlier file;
    and no drop changes whether the table is shown. *)
Theorem rejected_drop_keeps_earlier_upload props panel papa acceptedFiles st :
  let r := onDrop props papa acceptedFiles st in
  showUploadedDataTable r.1 = showUploadedDataTable st ∧
  (uploads r.2 = [] →
   parsedData r.1 = parsedData st ∧
   uploadedFileName r.1 = uploadedFileName st ∧
   uploadedFileSize r.1 = uploadedFileSize st ∧
   uploadedBanner (render panel r.1) = uploadedBanner (render panel st) ∧
   dataTable (render panel r.1) = dataTable (render panel st)).
Proof.
  intros r; subst r.
  destruct (onDrop_outcome props papa acceptedFiles st)
    as [Hnone | | | file' data Hp Hne | file' data msg Hp Hnil Hv Hm
        | file' data Hp Hnil Hv]; simpl; (split; [done|]); try done.
  unfold uploads; simpl.
  fold (uploads (callsInOrder (columnConfigs props) data ++
                 [ValidatorCall (validatedRows props data);
                  OnUploadCall (validatedRows props data)])).
  rewrite uploads_app, uploads_after_validates. done.
Qed.

Lemma rejected_drop_keeps_earlier_upload_witness :
  let st := (onDrop idRequired (λ _, Complete cleanRows) [someFile]
               initialState).1 in
  uploads (onDrop idRequired (λ _, Complete idRows) [oneByte] st).2 = [] ∧
  parsedData (onDrop idRequired (λ _, Complete idRows) [oneByte] st).1 =
    cleanRows.
Proof.
  intros st.
  assert (uploads (onDrop idRequired (λ _, Complete idRows) [oneByte] st).2 = [])
    as Hu by reflexivity.
  split; [exact Hu|].
  exact (proj1 (proj2 (rejected_drop_keeps_earlier_upload idRequired noPath
    (λ _, Complete idRows) [oneByte] st) Hu)).
Defined.

(** X8. A file without data rows is accepted without a trace on the
    screen: when Papa delivers no row and the batch validator lets the
    empty list pass, [onUpload] is called with the empty list, yet (when no
    [alreadyUploadedPath] is set) what is rendered is what the component
    renders before any drop: no alert, no banner, no buttons, no table. *)
Theorem empty_file_is_accepted_unseen props panel papa acceptedFiles file st :
  parses props papa acceptedFiles file [] →
  JS.truthy (validator props []) = false →
  JS.truthy (alreadyUploadedPath panel) = false →
  let r := onDrop props papa acceptedFiles st in
  r.2 = [ParseCall file; ValidatorCall []; OnUploadCall []] ∧
  uploadedFileName r.1 = Some (File.name file) ∧
  render panel r.1 = render panel initialState.
Proof.
  intros Hp Hv Hpath r; subst r.
  rewrite (onDrop_parses _ _ _ _ _ _ Hp), complete_accepts by done.
  unfold render; simpl. rewrite Hpath. done.
Qed.

Lemma empty_file_is_accepted_unseen_witness :
  parses idRequired (λ _, Complete []) [someFile] someFile [] ∧
  render noPath (onDrop idRequired (λ _, Complete []) [someFile] initialState).1 =
    render noPath initialState.
Proof.
  assert (parses idRequired (λ _, Complete []) [someFile] someFile [])
    as Hp by (repeat split).
  split; [exact Hp|].
  exact (proj2 (proj2 (empty_file_is_accepted_unseen idRequired noPath
    (λ _, Complete []) [someFile] someFile initialState Hp eq_refl eq_refl))).
Defined.

(** ** The size gate *)

Lemma parseCalls_validate tr :
  Forall (λ c, isValidateCall c = true) tr → parseCalls tr = [].
Proof. induction 1 as [|[] ? ? ? IH]; simpl in *; done. Qed.

Lemma parseCalls_app tr1 tr2 :
  parseCalls (tr1 ++ tr2) = parseCalls tr1 ++ parseCalls tr2.
Proof. apply omap_app. Qed.

Lemma outcome_parseCalls props papa acceptedFiles st r :
  Outcome props papa acceptedFiles st r →
  match head acceptedFiles with
  | Some file =>
      match exceeds props file with
      | Some ms => parseCalls r.2 = [] ∧ fileError r.1 = Some (sizeMessage ms)
      | None => parseCalls r.2 = [file]
      end
  | None => parseCalls r.2 = []
  end.
Proof.
  intros [Hnone | file ms Hhead Hsize | file message Hhead Hsize Hpapa
          | file data (Hhead & Hsize & Hpapa) Hne
          | file data msg (Hhead & Hsize & Hpapa) Hnil Hv Hm
          | file data (Hhead & Hsize & Hpapa) Hnil Hv];
    rewrite ?Hnone, ?Hhead, ?Hsize; simpl; try done.
  - unfold parseCalls; simpl. f_equal.
    apply parseCalls_validate, callsInOrder_validate.
  - unfold parseCalls; simpl. f_equal.
    fold (parseCalls (callsInOrder (columnConfigs props) data ++
                      [ValidatorCall (validatedRows props data)])).
    rewrite parseCalls_app, parseCalls_validate by apply callsInOrder_validate.
    done.
  - unfold parseCalls; simpl. f_equal.
    fold (parseCalls (callsInOrder (columnConfigs props) data ++
                      [ValidatorCall (validatedRows props data);
                       OnUploadCall (validatedRows props data)])).
    rewrite parseCalls_app, parseCalls_validate by apply callsInOrder_validate.
    done.
Qed.

Lemma exceeds_None props file :
  exceeds props file = None ↔
  maxSizeMB props = None ∨
  ∃ mb, maxSizeMB props = Some mb ∧
        ((mb == 0)%Q ∨
         (inject_Z (Z.of_N (File.size file)) <= mb * 1024 * 1024)%Q).
Proof.
  split.
  - intros Hex. destruct (maxSizeMB props) as [mb|] eqn:Hmb; [right|by left].
    exists mb. split; [done|].
    destruct (Qeq_dec mb 0) as [Hz|Hnz]; [by left|right].
    destruct (Qlt_le_dec (mb * 1024 * 1024)
                         (inject_Z (Z.of_N (File.size file)))) as [Hlt|Hle];
      [|done].
    by rewrite (exceeds_spec props file mb) in Hex.
  - intros [Hnone | (mb & Hmb & [Hz | Hle])]; unfold exceeds.
    + unfold maxSize. by rewrite Hnone.
    + by rewrite (maxSize_zero props mb).
    + unfold maxSize. rewrite Hmb.
      destruct (JS.truthyNumber mb); [|done].
      destruct (JS.truthyNumber (mb * 1024 * 1024)); [|done]. simpl.
      unfold JS.gt. apply Qle_bool_iff in Hle. by rewrite Hle.
Qed.

(** X9. The size gate rejects nothing else: a first file is handed to
    Papa exactly when [maxSizeMB] is null, or zero, or the file's size in
    bytes is at most [maxSizeMB * 1024 * 1024], the bound itself
    included. *)
Theorem files_within_the_limit_are_parsed props papa acceptedFiles file st :
  head acceptedFiles = Some file →
  let r := onDrop props papa acceptedFiles st in
  parseCalls r.2 = [file] ↔
  (maxSizeMB props = None ∨
   ∃ mb, maxSizeMB props = Some mb ∧
         ((mb == 0)%Q ∨
          (inject_Z (Z.of_N (File.size file)) <= mb * 1024 * 1024)%Q)).
Proof.
  intros Hhead r; subst r. rewrite <- exceeds_None.
  pose proof (outcome_parseCalls _ _ _ _ _
    (onDrop_outcome props papa acceptedFiles st)) as H.
  rewrite Hhead in H.
  destruct (exceeds props file) as [ms|]; [|done].
  destruct H as [-> _]. done.
Qed.

Lemma files_within_the_limit_are_parsed_witness :
  head [exactlyHalf] = Some exactlyHalf ∧
  (inject_Z (Z.of_N (File.size exactlyHalf)) <= (1 # 2) * 1024 * 1024)%Q ∧
  parseCalls (onDrop halfMegabyte (λ _, Complete []) [exactlyHalf]
                initialState).2 = [exactlyHalf].
Proof.
  assert (inject_Z (Z.of_N (File.size exactlyHalf)) <= (1 # 2) * 1024 * 1024)%Q
    as Hle by (intros E; discriminate E).
  split_and!; [reflexivity | exact Hle |].
  apply (files_within_the_limit_are_parsed halfMegabyte (λ _, Complete [])
    [exactlyHalf] exactlyHalf initialState eq_refl).
  right. exists (1 # 2)%Q. split; [reflexivity | right; exact Hle].
Defined.

Lemma toFixed_Qeq digits (x y : Q) :
  (x == y)%Q → JS.toFixed digits x = JS.toFixed digits y.
Proof.
  intros E. unfold JS.toFixed, JS.gt.
  assert (Qfloor (Qabs x * inject_Z (10 ^ Z.of_nat digits) + (1 # 2)) =
          Qfloor (Qabs y * inject_Z (10 ^ Z.of_nat digits) + (1 # 2))) as ->.
  { apply Qfloor_comp. by rewrite E. }
  assert (Qle_bool 0 x = Qle_bool 0 y) as ->; [|done].
  destruct (Qle_bool 0 x) eqn:Hx, (Qle_bool 0 y) eqn:Hy; try done.
  - apply Qle_bool_iff in Hx. rewrite E in Hx. apply Qle_bool_iff in Hx.
    congruence.
  - apply Qle_bool_iff in Hy. rewrite <- E in Hy. apply Qle_bool_iff in Hy.
    congruence.
Qed.

(** X10. The size message names the configured limit: when a file is
    rejected for its size, the file error is [File exceeds maximum size of
    <m>MB.] with [<m>] the value of [maxSizeMB] itself, written with two
    decimals (scaling to bytes and back loses nothing). *)
Theorem size_message_names_the_limit props papa acceptedFiles file st mb :
  head acceptedFiles = Some file →
  maxSizeMB props = Some mb →
  is_Some (exceeds props file) →
  fileError (onDrop props papa acceptedFiles st).1 =
    Some ("File exceeds maximum size of " +:+ JS.toFixed 2 mb +:+ "MB.").
Proof.
  intros Hhead Hmb [ms Hex].
  unfold onDrop, onDropStart. rewrite Hhead, Hex. simpl.
  assert (ms = (mb * 1024 * 1024)%Q) as ->.
  { unfold exceeds, maxSize in Hex. rewrite Hmb in Hex.
    destruct (JS.truthyNumber mb); [|done].
    destruct (_ && _); congruence. }
  unfold sizeMessage. do 2 f_equal.
  rewrite (toFixed_Qeq 2 _ mb); [done|]. field.
Qed.

Lemma size_message_names_the_limit_witness :
  is_Some (exceeds halfMegabyte bigFile) ∧
  fileError (onDrop halfMegabyte (λ _, Complete []) [bigFile] initialState).1 =
    Some ("File exceeds maximum size of " +:+ JS.toFixed 2 (1 # 2) +:+ "MB.").
Proof.
  assert (is_Some (exceeds halfMegabyte bigFile)) as H
    by (eexists; reflexivity).
  split; [exact H|].
  exact (size_message_names_the_limit halfMegabyte (λ _, Complete [])
    [bigFile] bigFile initialState (1 # 2)%Q eq_refl eq_refl H).
Defined.

(** ** The template link *)

Lemma allSafe_app a b : allSafe (a +:+ b) = allSafe a && allSafe b.
Proof.
  induction a as [|c a IH]; [done|].
  rewrite string_app_cons. simpl. by rewrite IH, andb_assoc.
Qed.

Lemma encodeURI_char_safe c :
  allSafe (if JS.uriKept c then String c ""
           else if (N_of_ascii c <? 128)%N then JS.percent (N_of_ascii c)
           else JS.percent (192 + N_of_ascii c / 64) +:+
                JS.percent (128 + N_of_ascii c mod 64)) = true.
Proof.
  destruct c as [[] [] [] [] [] [] [] []]; vm_compute; reflexivity.
Qed.

Lemma encodeURI_safe s : allSafe (JS.encodeURI s) = true.
Proof.
  induction s as [|c s IH]; [done|].
  simpl. by rewrite allSafe_app, encodeURI_char_safe, IH.
Qed.

(** X11. Whatever the column names hold, the address put on the template
    link is the data-URI prefix, the escaped header line and [%0A], and
    every character of it is either one [encodeURI] keeps or the percent
    sign of an escape: no space, line break, quote or character above 127
    reaches the attribute. *)
Theorem template_address_is_escaped props :
  href (downloadTemplate props) =
    "data:text/csv;charset=utf-8," +:+
    JS.encodeURI (headerRow props) +:+ "%0A" ∧
  allSafe (href (downloadTemplate props)) = true.
Proof.
  split.
  - unfold downloadTemplate, csvContent; simpl.
    by rewrite !encodeURI_app.
  - apply encodeURI_safe.
Qed.

(** ** Delete and Visualize *)

(** X12. Deleting undoes an upload on the screen: after a drop that was
    accepted, a confirmed delete calls [onDelete] once and (when no
    [alreadyUploadedPath] is set) brings back exactly what the component
    renders before any drop, whatever was on the screen before; a declined
    delete changes nothing and does not call [onDelete]. *)
Theorem delete_undoes_upload props panel papa acceptedFiles file data st confirm :
  parses props papa acceptedFiles file data →
  perRowErrors props data = [] →
  JS.truthy (validator props data) = false →
  JS.truthy (alreadyUploadedPath panel) = false →
  let uploaded := (onDrop props papa acceptedFiles st).1 in
  let r := handleDeleteData panel confirm uploaded in
  (confirm (deleteMessage panel) = true →
   r.2 = [ConfirmCall (deleteMessage panel); OnDeleteCall] ∧
   render panel r.1 = render panel initialState) ∧
  (confirm (deleteMessage panel) = false →
   r = (uploaded, [ConfirmCall (deleteMessage panel)])).
Proof.
  intros Hp Hnil Hv Hpath uploaded r; subst uploaded r.
  assert (validatedRows props data = data) as Hall
    by by apply no_errors_keeps_all.
  rewrite (onDrop_parses _ _ _ _ _ _ Hp), complete_accepts;
    rewrite ?Hall; try done.
  unfold handleDeleteData. split; intros ->; [|done].
  split; [done|]. unfold render; simpl. by rewrite Hpath.
Qed.

Lemma delete_undoes_upload_witness :
  parses idRequired (λ _, Complete cleanRows) [someFile] someFile cleanRows ∧
  render noPath
    (handleDeleteData noPath (λ _, true)
       (onDrop idRequired (λ _, Complete cleanRows) [someFile] initialState).1).1 =
  render noPath initialState.
Proof.
  assert (parses idRequired (λ _, Complete cleanRows) [someFile] someFile
            cleanRows) as Hp by (repeat split).
  split; [exact Hp|].
  exact (proj2 (proj1 (delete_undoes_upload idRequired noPath
    (λ _, Complete cleanRows) [someFile] someFile cleanRows initialState
    (λ _, true) Hp eq_refl eq_refl eq_refl) eq_refl)).
Defined.

(** X13. The data fetcher is used only for data saved elsewhere: without
    [alreadyUploadedPath] a click on Visualize calls nothing and shows the
    stored rows as they are; with it, [dataFetcher] is called once, its rows
    replace the stored ones when the promise resolves, and a rejected
    promise is only logged, so with no rows stored the table stays on its
    [Fetching data] placeholder. *)
Theorem visualize_fetches_only_saved_data panel fetch st :
  let r := handleVisualizeData panel fetch st in
  showUploadedDataTable r.1 = true ∧
  (JS.truthy (alreadyUploadedPath panel) = false →
   r.2 = [] ∧ parsedData r.1 = parsedData st ∧
   (parsedData st ≠ [] → dataTable (render panel r.1) = Some (parsedData st))) ∧
  (JS.truthy (alreadyUploadedPath panel) = true →
   dataTable (render panel r.1) = Some (parsedData r.1) ∧
   match fetch with
   | Resolved fetchedData =>
       r.2 = [DataFetcherCall] ∧ parsedData r.1 = fetchedData
   | Rejected =>
       r.2 = [DataFetcherCall; ConsoleLogCall] ∧
       parsedData r.1 = parsedData st ∧
       (parsedData st = [] →
        ∀ table, DataTable.view table (parsedData r.1) = DataTable.Fetching)
   end).
Proof.
  intros r; subst r. unfold handleVisualizeData, render.
  destruct (JS.truthy (alreadyUploadedPath panel)) eqn:Hpath; simpl.
  - split_and!; [by destruct fetch | done |]. intros _.
    destruct fetch; simpl; rewrite ?Hpath; simpl; split_and!; try done.
    by intros ->.
  - split_and!; try done.
    intros _. split_and!; try done.
    intros Hne. by destruct (parsedData st).
Qed.

Lemma visualize_fetches_only_saved_data_witness :
  JS.truthy (alreadyUploadedPath savedElsewhere) = true ∧
  (handleVisualizeData savedElsewhere Rejected initialState).2 =
    [DataFetcherCall; ConsoleLogCall].
Proof.
  split; [reflexivity|].
  exact (proj1 (proj2 (proj2 (proj2 (visualize_fetches_only_saved_data
    savedElsewhere Rejected initialState)) eq_refl))).
Defined.

(** ** The component over any sequence of events *)

Lemma outcome_upload_fields props papa acceptedFiles st r :
  Outcome props papa acceptedFiles st r →
  (errors r.1 = [] ∨ fileError r.1 = None) ∧
  ((parsedData r.1 = parsedData st ∧
    uploadedFileName r.1 = uploadedFileName st ∧
    uploadedFileSize r.1 = uploadedFileSize st) ∨
   (is_Some (uploadedFileName r.1) ∧ is_Some (uploadedFileSize r.1))).
Proof.
  intros []; simpl; split; eauto.
Qed.

Lemma step_wellFormed props panel st ev :
  wellFormed panel st → wellFormed panel (step props panel st ev).
Proof.
  intros [Halert Hbanner]. destruct ev as [acceptedFiles papa|confirm|fetch]; simpl.
  - destruct (outcome_upload_fields _ _ _ _ _
      (onDrop_outcome props papa acceptedFiles st))
      as [Ha [(Hd & Hn & Hs) | [Hn Hs]]]; split; try done.
    rewrite Hd, Hn, Hs. exact Hbanner.
  - unfold handleDeleteData. destruct (confirm _); simpl.
    + split; [exact Halert | by intros _ Hne].
    + by split.
  - unfold handleVisualizeData.
    destruct (JS.truthy (alreadyUploadedPath panel)) eqn:Hpath.
    + destruct fetch; simpl;
        (split; [exact Halert | intros Hf; congruence]).
    + simpl. split; [exact Halert | intros _; by apply Hbanner].
Qed.

Lemma run_wellFormed props panel events :
  wellFormed panel (run props panel events).
Proof.
  unfold run.
  assert (wellFormed panel initialState) as Hinit.
  { split; [by left | done]. }
  revert Hinit. generalize initialState.
  induction events as [|ev events IH]; intros st Hst; simpl; [done|].
  apply IH. by apply step_wellFormed.
Qed.

Lemma complete_upload_fields props file data st :
  (parsedData (complete props file data st).1 = parsedData st ∧
   uploadedFileName (complete props file data st).1 = uploadedFileName st ∧
   uploadedFileSize (complete props file data st).1 = uploadedFileSize st) ∨
  (is_Some (uploadedFileName (complete props file data st).1) ∧
   is_Some (uploadedFileSize (complete props file data st).1)).
Proof.
  destruct (complete_cases props data) as [H|[[H (msg & Hv & Hm)]|[H Hv]]].
  - left. by rewrite complete_rejects.
  - left. by rewrite (complete_batch_rejects _ _ _ _ msg).
  - right. rewrite complete_accepts by done. simpl. eauto.
Qed.

Lemma looseStep_named st e :
  JS.truthy (alreadyUploadedPath e.1.2) = false →
  named st → named (looseStep st e).
Proof.
  destruct e as [[props panel] ev]; simpl. intros Hpath Hst.
  destruct ev as [acceptedFiles|file data|message|confirm|fetch].
  - unfold onDropStart. destruct (head acceptedFiles) as [file|]; simpl;
      [destruct (exceeds props file); simpl|]; exact Hst.
  - destruct (complete_upload_fields props file data st)
      as [(Hd & Hn & Hs) | [Hn Hs]]; unfold named.
    + rewrite Hd, Hn, Hs. exact Hst.
    + done.
  - exact Hst.
  - unfold handleDeleteData. destruct (confirm _); simpl; [|exact Hst].
    by intros Hne.
  - unfold handleVisualizeData. rewrite Hpath. exact Hst.
Qed.

Lemma looseRun_named events : neverSaved events → named (looseRun events).
Proof.
  unfold looseRun, neverSaved.
  assert (named initialState) as Hinit by (by intros Hne).
  revert Hinit. generalize initialState.
  induction events as [|e events IH]; intros st Hst Hall; simpl; [done|].
  apply Forall_cons in Hall as [He Hall].
  apply IH; [|done]. by apply looseStep_named.
Qed.

(** X14. The banner prints null only for rows that were fetched: as long
    as no render had [alreadyUploadedPath] set, after any drops, Papa
    callbacks, delete clicks and Visualize clicks, in any order and
    whatever the props of each render, a banner [File <name> (<size> MB)
    is uploaded] that is rendered has a name and a size.  Rows stored by
    [dataFetcher] come without either: when the path is set, a resolved
    fetch of at least one row leaves the name and the size as they were,
    and a later render without the path shows them in the banner, null
    and null from the initial state. *)
Theorem banner_names_a_file_unless_fetched :
  (∀ events panel name size,
     neverSaved events →
     uploadedBanner (render panel (looseRun events)) = Some (name, size) →
     is_Some name ∧ is_Some size) ∧
  (∀ saved later fetchedData st,
     JS.truthy (alreadyUploadedPath saved) = true →
     JS.truthy (alreadyUploadedPath later) = false →
     fetchedData ≠ [] →
     uploadedBanner
       (render later
          (handleVisualizeData saved (Resolved fetchedData) st).1) =
     Some (uploadedFileName st, uploadedFileSize st)).
Proof.
  split.
  - intros events panel name size Hnever.
    pose proof (looseRun_named events Hnever) as H.
    unfold render; simpl.
    destruct (JS.truthy (alreadyUploadedPath panel)); simpl; [done|].
    destruct (parsedData (looseRun events)) as [|row rows] eqn:E; simpl;
      [done|].
    intros [= <- <-]. apply H. by rewrite E.
  - intros saved later fetchedData st Hsaved Hlater Hne.
    unfold handleVisualizeData, render. rewrite Hsaved, Hlater. simpl.
    by destruct fetchedData.
Qed.

Lemma banner_names_a_file_unless_fetched_witness :
  JS.truthy (alreadyUploadedPath savedElsewhere) = true ∧
  JS.truthy (alreadyUploadedPath noPath) = false ∧
  cleanRows ≠ [] ∧
  uploadedBanner
    (render noPath
       (handleVisualizeData savedElsewhere (Resolved cleanRows)
          initialState).1) = Some (None, None).
Proof.
  assert (cleanRows ≠ []) as Hne by discriminate.
  split_and!; [reflexivity | reflexivity | exact Hne |].
  exact (proj2 banner_names_a_file_unless_fetched savedElsewhere noPath
    cleanRows initialState eq_refl eq_refl Hne).
Defined.

(** X15. The two alerts never show together: after any sequence of
    drops, delete clicks and Visualize clicks from the initial state, the
    validation list or the file alert is absent (each drop being taken
    with the callback Papa makes for it). *)
Theorem alerts_never_show_together props panel events :
  let v := render panel (run props panel events) in
  validationAlert v = None ∨ fileAlert v = None.
Proof.
  intros v; subst v.
  destruct (run_wellFormed props panel events) as [[H|H] _].
  - left. rewrite render_validationAlert, H. done.
  - right. rewrite render_fileAlert, H. done.
Qed.

(** ** [DataTable] *)

Lemma slice_nat {A} (a b : nat) (l : list A) :
  (a ≤ b)%nat →
  JSNum.slice (JSNum.Int (Z.of_nat a)) (JSNum.Int (Z.of_nat b)) l =
  take (b - a) (drop a l).
Proof.
  intros Hab. unfold JSNum.slice, JSNum.relativeIndex; simpl.
  assert ((Z.of_nat a <? 0)%Z = false) as -> by lia.
  assert ((Z.of_nat b <? 0)%Z = false) as -> by lia.
  destruct (decide (a ≤ length l)%nat) as [Ha|Ha].
  - replace (Z.to_nat (Z.min (Z.of_nat a) (Z.of_nat (length l)))) with a by lia.
    destruct (decide (b ≤ length l)%nat) as [Hb|Hb].
    + f_equal. lia.
    + rewrite !take_ge; [done | rewrite length_drop; lia
                         | rewrite length_drop; lia].
  - rewrite !drop_ge by lia. by rewrite !take_nil.
Qed.

Lemma body_nat (p r : nat) data :
  DataTable.body
    {| DataTable.page := JSNum.Int (Z.of_nat p);
       DataTable.rowsPerPage := JSNum.Int (Z.of_nat r) |} data =
  imap (λ i row, (JSNum.Int (Z.of_nat (p * r + i + 1)), row))
       (take r (drop (p * r) data)).
Proof.
  unfold DataTable.body; simpl.
  rewrite <- Nat2Z.inj_mul, <- Nat2Z.inj_add.
  rewrite slice_nat by lia.
  replace (p * r + r - p * r)%nat with r by lia.
  apply imap_ext. intros i row _. do 2 f_equal. lia.
Qed.

(** X16. The table shows the right rows under the right numbers: on
    page [p] with [r] rows per page, position [i] of the body holds a row
    exactly when [i < r] and the data has a row at index [p * r + i]; it is
    that row, and the number in its first cell is its one-based position
    in the data, [p * r + i + 1]. *)
Theorem page_rows_and_numbers (p r : nat) (data : list (gmap string string))
    (i : nat) num row :
  DataTable.body
    {| DataTable.page := JSNum.Int (Z.of_nat p);
       DataTable.rowsPerPage := JSNum.Int (Z.of_nat r) |} data !! i =
    Some (num, row) ↔
  (i < r)%nat ∧
  num = JSNum.Int (Z.of_nat (p * r + i + 1)) ∧
  data !! (p * r + i)%nat = Some row.
Proof.
  rewrite body_nat, list_lookup_imap, lookup_take, lookup_drop.
  destruct (decide (i < r)%nat) as [Hi|Hi].
  - destruct (data !! (p * r + i)%nat) as [row'|]; simpl.
    + split.
      * intros [= <- <-]. done.
      * intros (_ & -> & [= ->]). done.
    + split; [done | by intros (_ & _ & ?)].
  - simpl. split; [done | by intros (? & _)].
Qed.

Lemma pages_concat {A} (r n : nat) (l : list A) :
  concat (map (λ p, take r (drop (p * r) l)) (seq 0 n)) = take (n * r) l.
Proof.
  induction n as [|n IH]; [done|].
  rewrite seq_S, map_app, concat_app, IH. simpl.
  rewrite app_nil_r, take_take_drop. f_equal. lia.
Qed.

(** X17. Paging loses and repeats nothing: for any number of rows per
    page, the bodies of pages [0 .. n-1], one after the other, are the data
    itself as soon as [n] pages are enough to hold it. *)
Theorem pages_partition_the_data (r n : nat) (data : list (gmap string string)) :
  (length data ≤ n * r)%nat →
  concat (map (λ p, snd <$>
                 DataTable.body
                   {| DataTable.page := JSNum.Int (Z.of_nat p);
                      DataTable.rowsPerPage := JSNum.Int (Z.of_nat r) |} data)
              (seq 0 n)) = data.
Proof.
  intros Hn.
  trans (take (n * r) data); [|by apply take_ge].
  rewrite <- pages_concat. f_equal.
  apply map_ext. intros p. rewrite body_nat, fmap_imap.
  rewrite (imap_ext _ (λ _ row, row)) by done.
  generalize (take r (drop (p * r) data)). intros l.
  induction l as [|x l IH]; simpl; [done|]. f_equal. exact IH.
Qed.

Lemma pages_partition_the_data_witness :
  (length cleanRows ≤ 2 * 1)%nat ∧
  concat (map (λ p, snd <$>
                 DataTable.body
                   {| DataTable.page := JSNum.Int (Z.of_nat p);
                      DataTable.rowsPerPage := JSNum.Int (Z.of_nat 1) |}
                   cleanRows)
              (seq 0 2)) = cleanRows.
Proof.
  assert (length cleanRows ≤ 2 * 1)%nat as H by (simpl; lia).
  split; [exact H|].
  exact (pages_partition_the_data 1 2 cleanRows H).
Defined.

(** ** Decimal numerals: written by [ofIndex], read by [parseInt] *)

Lemma digit_char (d : N) :
  (d < 10)%N →
  JSNum.isDigit (pretty_N_char d) = true ∧
  (N_of_ascii (pretty_N_char d) - 48 = d)%N.
Proof.
  intros Hd.
  assert (d = 0 ∨ d = 1 ∨ d = 2 ∨ d = 3 ∨ d = 4 ∨ d = 5 ∨ d = 6 ∨ d = 7 ∨
          d = 8 ∨ d = 9)%N as H by lia.
  repeat (destruct H as [-> | H]; [by vm_compute|]). subst d. by vm_compute.
Qed.

Lemma digit_is_plain c :
  JSNum.isDigit c = true →
  JS.isWhiteSpace c = false ∧ Ascii.eqb c "-" = false ∧ Ascii.eqb c "+" = false.
Proof.
  destruct c as [[] [] [] [] [] [] [] []]; vm_compute; intros H;
    (discriminate H || done).
Qed.

Lemma parseDigits_stop acc s :
  JSNum.startsWithDigit s = false → JSNum.parseDigits acc s = acc.
Proof. destruct s as [|c s]; simpl; [done|]. by intros ->. Qed.

Lemma parseDigits_pretty_go (x : N) : ∀ s acc,
  ∃ k : N, JSNum.parseDigits acc (pretty_N_go x s) =
           JSNum.parseDigits (acc * 10 ^ k + x) s.
Proof.
  induction (N.lt_wf_0 x) as [x _ IH]. intros s acc.
  destruct (decide (x = 0)%N) as [->|Hx].
  - exists 0%N. rewrite pretty_N_go_0. f_equal. lia.
  - rewrite pretty_N_go_step by lia.
    destruct (IH (x `div` 10)%N) with
      (s := String (pretty_N_char (x `mod` 10)) s) (acc := acc) as [k Hk].
    { apply N.div_lt; lia. }
    exists (k + 1)%N. rewrite Hk. simpl.
    destruct (digit_char (x `mod` 10)%N) as [-> ->].
    { apply N.mod_lt. lia. }
    f_equal. rewrite N.pow_add_r.
    pose proof (N.div_mod x 10). lia.
Qed.

Lemma pretty_go_app (x : N) : ∀ s t,
  pretty_N_go x s +:+ t = pretty_N_go x (s +:+ t).
Proof.
  induction (N.lt_wf_0 x) as [x _ IH]. intros s t.
  destruct (decide (x = 0)%N) as [->|Hx].
  - by rewrite !pretty_N_go_0.
  - rewrite (pretty_N_go_step x s), (pretty_N_go_step x (s +:+ t)) by lia.
    rewrite IH by (apply N.div_lt; lia). reflexivity.
Qed.

Lemma pretty_go_starts_with_digit (x : N) : ∀ s,
  (0 < x)%N → JSNum.startsWithDigit (pretty_N_go x s) = true.
Proof.
  induction (N.lt_wf_0 x) as [x _ IH]. intros s Hx.
  rewrite pretty_N_go_step by done.
  destruct (decide (x `div` 10 = 0)%N) as [E|E].
  - rewrite E, pretty_N_go_0. simpl.
    apply digit_char, N.mod_lt. done.
  - apply IH; [by apply N.div_lt | by apply N.neq_0_lt_0].
Qed.

Lemma pretty_starts_with_digit (n : N) t :
  JSNum.startsWithDigit (pretty n +:+ t) = true.
Proof.
  unfold pretty, pretty_N. case_decide as Hn; [done|].
  rewrite pretty_go_app. apply pretty_go_starts_with_digit. lia.
Qed.

(** The number is read back from its numeral, whatever follows it that
    is not a digit. *)
Lemma parseDigits_pretty (n : N) t :
  JSNum.startsWithDigit t = false →
  JSNum.parseDigits 0 (pretty n +:+ t) = n.
Proof.
  intros Ht. unfold pretty, pretty_N. case_decide as Hn.
  - subst n. rewrite string_app_cons. simpl. by rewrite parseDigits_stop.
  - rewrite pretty_go_app, string_app_nil.
    destruct (parseDigits_pretty_go n t 0) as [k ->].
    rewrite parseDigits_stop by done. lia.
Qed.

Lemma string_app_empty (s : string) : s +:+ "" = s.
Proof.
  induction s as [|c s IH]; [done|]. by rewrite string_app_cons, IH.
Qed.

Lemma parseInt10_digits s :
  JSNum.startsWithDigit s = true →
  JSNum.parseInt10 s =
  match JSNum.toDouble (JSNum.parseDigits 0 s) with
  | Some n => JSNum.Int (Z.of_N n)
  | None => JSNum.Infinity false
  end.
Proof.
  destruct s as [|c rest]; [done|]. intros Hc.
  destruct (digit_is_plain c Hc) as (Hw & Hm & Hp).
  unfold JSNum.parseInt10, JSNum.unsigned.
  cbn [JS.trimStart]. rewrite Hw, Hm, Hp. cbn [orb].
  by rewrite Hc.
Qed.

Lemma toDouble_exact (n : N) : (n < 2 ^ 53)%N → JSNum.toDouble n = Some n.
Proof.
  intros Hn. unfold JSNum.toDouble.
  apply N.ltb_lt in Hn. by rewrite Hn.
Qed.

Lemma parseInt10_ofIndex (n : nat) :
  (N.of_nat n < 2 ^ 53)%N →
  JSNum.parseInt10 (JS.ofIndex n) = JSNum.Int (Z.of_nat n).
Proof.
  intros Hn. unfold JS.ofIndex, pretty, pretty_nat.
  rewrite <- (string_app_empty (pretty (N.of_nat n))).
  rewrite parseInt10_digits by apply pretty_starts_with_digit.
  rewrite parseDigits_pretty by done.
  rewrite toDouble_exact by done. f_equal. lia.
Qed.

Lemma parseInt10_no_digit value :
  JSNum.startsWithDigit (JSNum.unsigned (JS.trimStart value)) = false →
  JSNum.parseInt10 value = JSNum.NaN.
Proof. intros H. unfold JSNum.parseInt10. by rewrite H. Qed.

(** X18. Choosing a number of rows per page shows the first rows: when
    the value of the selector is the decimal numeral of [n], for [n] below
    2^53, the table moves to page 0 with [n] rows per page, whatever page
    it was on, and its body is the first [n] rows of the data, numbered
    from 1.  A value that, once leading white space and one sign are
    skipped, does not start with a digit makes the count [NaN] and the
    body empty. *)
Theorem rows_per_page_shows_first_rows :
  (∀ (n : nat) (data : list (gmap string string)) st,
     (N.of_nat n < 2 ^ 53)%N →
     DataTable.onRowsPerPageChange (JS.ofIndex n) st =
       {| DataTable.page := JSNum.Int 0;
          DataTable.rowsPerPage := JSNum.Int (Z.of_nat n) |} ∧
     DataTable.body (DataTable.onRowsPerPageChange (JS.ofIndex n) st) data =
       imap (λ i row, (JSNum.Int (Z.of_nat (i + 1)), row)) (take n data)) ∧
  (∀ value (data : list (gmap string string)) st,
     JSNum.startsWithDigit (JSNum.unsigned (JS.trimStart value)) = false →
     DataTable.onRowsPerPageChange value st =
       {| DataTable.page := JSNum.Int 0; DataTable.rowsPerPage := JSNum.NaN |} ∧
     DataTable.body (DataTable.onRowsPerPageChange value st) data = []).
Proof.
  split.
  - intros n data st Hn.
    unfold DataTable.onRowsPerPageChange. rewrite parseInt10_ofIndex by done.
    split; [done|].
    change (JSNum.Int 0) with (JSNum.Int (Z.of_nat 0)).
    rewrite body_nat. simpl. done.
  - intros value data st Hv.
    unfold DataTable.onRowsPerPageChange.
    rewrite parseInt10_no_digit by done. split; [done|].
    unfold DataTable.body; simpl.
    unfold JSNum.slice, JSNum.relativeIndex; simpl.
    destruct (length data); done.
Qed.

Lemma rows_per_page_shows_first_rows_witness :
  (N.of_nat 5 < 2 ^ 53)%N ∧
  JSNum.startsWithDigit (JSNum.unsigned (JS.trimStart " -px")) = false ∧
  DataTable.onRowsPerPageChange (JS.ofIndex 5) DataTable.initial =
    {| DataTable.page := JSNum.Int 0;
       DataTable.rowsPerPage := JSNum.Int (Z.of_nat 5) |} ∧
  DataTable.body (DataTable.onRowsPerPageChange " -px" DataTable.initial)
    cleanRows = [].
Proof.
  assert (N.of_nat 5 < 2 ^ 53)%N as Hn by reflexivity.
  split_and!; [exact Hn | reflexivity | |].
  - exact (proj1 (proj1 rows_per_page_shows_first_rows 5%nat cleanRows
      DataTable.initial Hn)).
  - exact (proj2 (proj2 rows_per_page_shows_first_rows " -px" cleanRows
      DataTable.initial eq_refl)).
Defined.

(** ** The error messages *)

Lemma list_ascii_of_string_app (a b : string) :
  list_ascii_of_string (a +:+ b) =
  list_ascii_of_string a ++ list_ascii_of_string b.
Proof.
  induction a as [|c a IH]; [done|].
  rewrite string_app_cons. simpl. by rewrite IH.
Qed.

Lemma string_app_inj_r (a b c : string) : a +:+ c = b +:+ c → a = b.
Proof.
  intros H. apply (f_equal list_ascii_of_string) in H.
  rewrite !list_ascii_of_string_app in H. apply app_inv_tail in H.
  rewrite <- (string_of_list_ascii_of_string a),
          <- (string_of_list_ascii_of_string b). by rewrite H.
Qed.

(** Both messages are [Row <index + 2>] followed by a text that starts
    with a colon. *)
Lemma message_row (n n' : nat) (t t' : string) :
  JSNum.startsWithDigit t = false →
  JSNum.startsWithDigit t' = false →
  "Row " +:+ JS.ofIndex (n + 2) +:+ t = "Row " +:+ JS.ofIndex (n' + 2) +:+ t' →
  n = n' ∧ t = t'.
Proof.
  intros Ht Ht' H. apply String.app_inj in H.
  assert (n = n') as <-.
  { apply (f_equal (JSNum.parseDigits 0)) in H.
    unfold JS.ofIndex, pretty, pretty_nat in H.
    rewrite !parseDigits_pretty in H by done. lia. }
  split; [done|]. by apply String.app_inj in H.
Qed.

(** X19. A message tells which row and which rule it is about: two
    [Missing required field] messages, or two [Invalid value] messages, are
    the same text only for the same row index and the same column name,
    and a message of one kind is never the text of a message of the other
    kind. *)
Theorem messages_identify_row_and_rule n col n' col' :
  (missingMessage n col = missingMessage n' col' →
   n = n' ∧ ColumnConfig.name col = ColumnConfig.name col') ∧
  (invalidMessage n col = invalidMessage n' col' →
   n = n' ∧ ColumnConfig.name col = ColumnConfig.name col') ∧
  missingMessage n col ≠ invalidMessage n' col'.
Proof.
  unfold missingMessage, invalidMessage. split_and!.
  - intros H. apply message_row in H as [-> H]; [|done..].
    split; [done|].
    apply String.app_inj, String.app_inj in H.
    by apply string_app_inj_r in H.
  - intros H. apply message_row in H as [-> H]; [|done..].
    split; [done|].
    apply String.app_inj, String.app_inj in H.
    by apply string_app_inj_r in H.
  - intros H. apply message_row in H as [_ H]; [|done..].
    rewrite !string_app_cons in H. discriminate H.
Qed.

Lemma messages_identify_row_and_rule_witness :
  missingMessage 1 (ColumnConfig.mk "id" true None None) =
    "Row 3: Missing required field " +:+ JS.dquote +:+ "id" +:+ JS.dquote +:+ "." ∧
  (1 = 1)%nat.
Proof.
  split; [reflexivity|].
  exact (proj1 (proj1 (messages_identify_row_and_rule 1
    (ColumnConfig.mk "id" true None None) 1
    (ColumnConfig.mk "id" true None None)) eq_refl)).
Defined.

(** ** From the drop to the table *)



(** ** The file the template link saves *)

Lemma percentDecode_plain c tail :
  Ascii.eqb c "%" = false →
  percentDecode (String c tail) = String c (percentDecode tail).
Proof.
  intros Hc. destruct tail as [|h [|l rest]]; simpl; [done | done |].
  by rewrite Hc.
Qed.

Lemma percentDecode_encoded_char c tail :
  percentDecode
    ((if JS.uriKept c then String c ""
      else if (N_of_ascii c <? 128)%N then JS.percent (N_of_ascii c)
      else JS.percent (192 + N_of_ascii c / 64) +:+
           JS.percent (128 + N_of_ascii c mod 64)) +:+ tail) =
  utf8 (String c "") +:+ percentDecode tail.
Proof.
  destruct c as [[] [] [] [] [] [] [] []];
    first [ reflexivity
          | apply percentDecode_plain; reflexivity ].
Qed.

Lemma utf8_cons c s : utf8 (String c s) = utf8 (String c "") +:+ utf8 s.
Proof. simpl. by destruct (N_of_ascii c <? 128)%N. Qed.

Lemma percentDecode_encodeURI s tail :
  percentDecode (JS.encodeURI s +:+ tail) = utf8 s +:+ percentDecode tail.
Proof.
  induction s as [|c s IH]; [done|].
  cbn [JS.encodeURI]. rewrite string_app_assoc, percentDecode_encoded_char, IH.
  by rewrite (utf8_cons c s), string_app_assoc.
Qed.

Lemma beforeHash_encoded_char c tail :
  Ascii.eqb c "#" = false →
  beforeHash
    ((if JS.uriKept c then String c ""
      else if (N_of_ascii c <? 128)%N then JS.percent (N_of_ascii c)
      else JS.percent (192 + N_of_ascii c / 64) +:+
           JS.percent (128 + N_of_ascii c mod 64)) +:+ tail) =
  (if JS.uriKept c then String c ""
   else if (N_of_ascii c <? 128)%N then JS.percent (N_of_ascii c)
   else JS.percent (192 + N_of_ascii c / 64) +:+
        JS.percent (128 + N_of_ascii c mod 64)) +:+ beforeHash tail.
Proof.
  destruct c as [[] [] [] [] [] [] [] []]; intros H;
    first [ discriminate H | reflexivity ].
Qed.

Lemma beforeHash_encodeURI s tail :
  noHash s = true →
  beforeHash (JS.encodeURI s +:+ tail) = JS.encodeURI s +:+ beforeHash tail.
Proof.
  induction s as [|c s IH]; [done|].
  simpl. intros [Hc Hs]%andb_true_iff. apply negb_true_iff in Hc.
  rewrite !string_app_assoc, beforeHash_encoded_char by done.
  by rewrite IH.
Qed.

Lemma noHash_app a b : noHash (a +:+ b) = noHash a && noHash b.
Proof.
  induction a as [|c a IH]; [done|].
  rewrite string_app_cons. simpl. by rewrite IH, andb_assoc.
Qed.

Lemma noHash_join names :
  Forall (λ n, noHash n = true) names → noHash (JS.join "," names) = true.
Proof.
  unfold JS.join.
  induction 1 as [|n names Hn Hnames IH]; simpl; [done|].
  destruct names as [|n' names]; [done|].
  rewrite noHash_app, Hn. simpl. exact IH.
Qed.

Lemma utf8_ascii s :
  Forall (λ c, (N_of_ascii c < 128)%N) (list_ascii_of_string s) → utf8 s = s.
Proof.
  induction s as [|c s IH]; simpl; [done|].
  intros [Hc Hs]%Forall_cons.
  apply N.ltb_lt in Hc. by rewrite Hc, IH.
Qed.

Lemma href_template props :
  href (downloadTemplate props) =
  "data:text/csv;charset=utf-8," +:+ JS.encodeURI (headerRow props) +:+ "%0A".
Proof.
  unfold downloadTemplate, csvContent; simpl. by rewrite !encodeURI_app.
Qed.

Lemma dataUrlBody_template s :
  noHash s = true →
  dataUrlBody ("data:text/csv;charset=utf-8," +:+ JS.encodeURI s +:+ "%0A") =
  Some (utf8 s +:+ JS.newline).
Proof.
  intros Hs. unfold dataUrlBody.
  change (beforeHash ("data:text/csv;charset=utf-8," +:+
                      JS.encodeURI s +:+ "%0A"))
    with ("data:text/csv;charset=utf-8," +:+
          beforeHash (JS.encodeURI s +:+ "%0A")).
  rewrite beforeHash_encodeURI by done.
  change (afterScheme ("data:text/csv;charset=utf-8," +:+
                       JS.encodeURI s +:+ beforeHash "%0A"))
    with (Some ("text/csv;charset=utf-8," +:+ JS.encodeURI s +:+ "%0A")).
  cbv beta iota.
  change (afterComma ("text/csv;charset=utf-8," +:+ JS.encodeURI s +:+ "%0A"))
    with (Some (JS.encodeURI s +:+ "%0A")).
  cbv [fmap option_fmap option_map].
  by rewrite percentDecode_encodeURI.
Qed.

(** X21. Without a number sign in the column names the template is what
    it should be: a click on the link saves a file named [template.csv]
    whose octets are the UTF-8 encoding of the header line (the names
    joined by commas, nothing quoted) followed by a line feed; when the
    names are ASCII these are the characters of the line themselves. *)
Theorem template_saves_the_header_line props :
  Forall (λ col, noHash (ColumnConfig.name col) = true) (columnConfigs props) →
  savedFile (downloadTemplate props) =
    Some ("template.csv", utf8 (headerRow props) +:+ JS.newline) ∧
  (Forall (λ c, (N_of_ascii c < 128)%N) (list_ascii_of_string (headerRow props)) →
   savedFile (downloadTemplate props) =
     Some ("template.csv", headerRow props +:+ JS.newline)).
Proof.
  intros Hnames.
  assert (savedFile (downloadTemplate props) =
          Some ("template.csv", utf8 (headerRow props) +:+ JS.newline)) as H.
  { unfold savedFile. rewrite href_template, dataUrlBody_template; [done|].
    apply noHash_join, Forall_fmap.
    eapply Forall_impl; [exact Hnames|]. done. }
  split; [exact H|].
  intros Hascii. by rewrite H, utf8_ascii.
Qed.

Lemma template_saves_the_header_line_witness :
  Forall (λ col, noHash (ColumnConfig.name col) = true) (columnConfigs idAge) ∧
  savedFile (downloadTemplate idAge) =
    Some ("template.csv", utf8 (headerRow idAge) +:+ JS.newline).
Proof.
  assert (Forall (λ col, noHash (ColumnConfig.name col) = true)
                 (columnConfigs idAge)) as H by (repeat constructor).
  split; [exact H|].
  exact (proj1 (template_saves_the_header_line idAge H)).
Defined.

(** ** A required field that is missing *)

(** X22. A missing required field is reported when no rule is named
    after a property of [Object.prototype] or [__parsed_extra]: for the
    row at zero-based index [n] and a required rule whose value is absent
    or trims to the empty string, the rule pushes exactly the message
    [Row <n+2>: Missing required field "<name>".] and marks the row
    invalid; [complete] returns with the message in the error list shown,
    the row is not kept and nothing is uploaded. *)
Theorem missing_required_field_is_reported props file st data n row col :
  plainNames (columnConfigs props) →
  data !! n = Some row →
  col ∈ columnConfigs props →
  ColumnConfig.required col = true →
  (row !! ColumnConfig.name col = None ∨
   ∃ raw, row !! ColumnConfig.name col = Some raw ∧ JS.trim raw = "") →
  let msg := "Row " +:+ JS.ofIndex (n + 2) +:+
             ": Missing required field " +:+
             JS.dquote +:+ ColumnConfig.name col +:+ JS.dquote +:+ "." in
  (∀ valid acc,
     checkColumnJS n row (valid, acc) col = Some (false, push msg acc)) ∧
  ∃ st' tr,
    completeJS props file data st = Returned st' tr ∧
    msg ∈ errors st' ∧ uploads tr = [] ∧
    (row ∉ validatedRows props data).
Proof.
  intros Hplain Hrow Hcol Hreq Hval msg.
  pose proof (passThrows_plain_names _ data Hplain) as Hsafe.
  destruct (column_missing n row col Hreq Hval) as (He & Hc & Hok).
  split.
  - intros valid acc. unfold checkColumnJS.
    assert (throwsOn row col = false) as ->.
    { destruct (throwsOn row col) eqn:Ht; [|done].
      assert (passThrows (columnConfigs props) data = true); [|congruence].
      apply throwsOn_true in Ht as [? ?]. apply passThrows_true.
      exists row, col. split_and!; try done.
      by eapply list_elem_of_lookup_2. }
    rewrite checkColumn_spec, He, Hc, Hok.
    unfold push. by rewrite andb_false_r, app_nil_r.
  - rewrite completeJS_spec, Hsafe.
    destruct (failing_pair_rejects props file st data n row col
                (missingMessage n col) Hrow Hcol He) as (Hin & Hkept & Hup).
    by eexists _, _.
Qed.

Lemma missing_required_field_is_reported_witness :
  let row : gmap string string := {[ "id" := "" ]} in
  let col := ColumnConfig.mk "id" true None None in
  plainNames (columnConfigs idRequired) ∧
  idRows !! 1%nat = Some row ∧
  col ∈ columnConfigs idRequired ∧
  checkColumnJS 1 row (true, emptyAcc) col =
    Some (false,
          push ("Row 3: Missing required field " +:+
                JS.dquote +:+ "id" +:+ JS.dquote +:+ ".") emptyAcc).
Proof.
  intros row col.
  assert (plainNames (columnConfigs idRequired)) as Hplain.
  { intros c Hc. apply list_elem_of_singleton in Hc as ->.
    intros Hin. apply (bool_decide_pack _) in Hin.
    vm_compute in Hin. exact Hin. }
  assert (idRows !! 1%nat = Some row) as Hrow by reflexivity.
  assert (col ∈ columnConfigs idRequired) as Hcol by (simpl; left).
  split_and!; [exact Hplain | exact Hrow | exact Hcol |].
  refine (proj1 (missing_required_field_is_reported idRequired someFile
    initialState idRows 1%nat row col Hplain Hrow Hcol eq_refl _) true emptyAcc).
  right. exists "". split; reflexivity.
Defined.
